(** * SGP30 driver (sgp30.py): checksum, framing and command layer

    A shallow embedding of the MicroPython driver.  Python integers are
    unbounded, so they are modelled as [Z] and every mask of the source
    ([& 0xFF], [& 0xFFFF]) is written out with [Z.land].  A [bytes] or
    [bytearray] object is a [list Z].  The I2C bus and [time.sleep] are
    collaborators of the driver: the bus is an interface (a type class), and
    every call the driver makes to a collaborator is recorded in a trace. *)

From Stdlib Require Import ZArith List Bool String Lia QArith Qround.
From Stdlib Require Import DecimalString.
Import ListNotations.

Open Scope Z_scope.

(** ** Checksum engine *)

Module Crc.

(** One turn of the inner loop of [_crc8] (lines 59-62). *)
Definition crc_shift (crc : Z) : Z :=
  if negb (Z.land crc 0x80 =? 0)
  then Z.lxor (Z.land (Z.shiftl crc 1) 0xFF) 0x31
  else Z.land (Z.shiftl crc 1) 0xFF.

(** [for _ in range(8)]: the loop variable is unused. *)
Fixpoint crc_shifts (n : nat) (crc : Z) : Z :=
  match n with
  | O => crc
  | S k => crc_shifts k (crc_shift crc)
  end.

(** The body of [for byte in data] (lines 57-62). *)
Definition crc_byte (crc byte : Z) : Z :=
  crc_shifts 8 (Z.lxor crc byte).

(** [_crc8(self, data)]; [self] is not used by the source. *)
Definition _crc8 (data : list Z) : Z :=
  fold_left crc_byte data 0xFF.

(** A byte, as an element of a [bytes] object. *)
Definition is_byte (x : Z) : Prop := 0 <= x <= 255.

(** Shift left by one, kept to 8 bits: the part both branches share. *)
Definition shl8 (x : Z) : Z := Z.land (Z.shiftl x 1) 0xFF.

(** The generator, applied when the bit shifted out is set. *)
Definition poly (top : bool) : Z := if top then 0x31 else 0.

(** *** The checksum as the specification words it

    An 8-bit accumulator starting at 0xFF; each input byte is XORed into it,
    then eight times: when the top bit (bit 7) is set, shift left and XOR
    with 0x31, otherwise shift left, both kept to 8 bits. *)
Definition spec_round (acc : Z) : Z :=
  if Z.testbit acc 7
  then Z.lxor (Z.shiftl acc 1) 0x31 mod 256
  else Z.shiftl acc 1 mod 256.

Definition spec_crc8 (b : list Z) : Z :=
  fold_right (fun byte k acc => k (Nat.iter 8 spec_round (Z.lxor acc byte)))
             (fun acc => acc) b 0xFF.

(** *** The checksum as a bit-serial CRC

    The message is fed one bit at a time, most significant bit of each byte
    first, into an 8-bit register holding the remainder modulo the generator
    x^8 + x^5 + x^4 + 1 (0x31 without its leading term); the register starts
    at 0xFF and is returned as it is. *)
Definition serial_step (reg : Z) (m : bool) : Z :=
  let out := xorb (Z.testbit reg 7) m in
  let reg' := Z.land (Z.shiftl reg 1) 0xFF in
  if out then Z.lxor reg' 0x31 else reg'.

(** Bits of a byte, most significant first. *)
Definition bits_msb_first (byte : Z) : list bool :=
  map (fun i => Z.testbit byte (Z.of_nat i)) [7; 6; 5; 4; 3; 2; 1; 0]%nat.

Definition serial_crc8 (b : list Z) : Z :=
  fold_left serial_step (flat_map bits_msb_first b) 0xFF.

End Crc.

Import Crc.

(** ** Exceptions, results and the collaborators *)

(** The exceptions the driver raises or meets.  [OSError] and [ValueError]
    are raised by the driver itself; a bus transport failure is an
    [OSError] on MicroPython but may be any exception of the collaborator.
    [BaseOnly] stands for the exceptions that do not derive from
    [Exception] ([KeyboardInterrupt], [SystemExit]), which [except Exception]
    does not catch. *)
Inductive exn : Type :=
| OSError (msg : string)
| ValueError (msg : string)
| IndexError (msg : string)
| OtherException (name : string)
| BaseOnly (name : string).

Definition is_Exception (e : exn) : bool :=
  match e with
  | BaseOnly _ => false
  | _ => true
  end.

Inductive result (A : Type) : Type :=
| Ok (a : A)
| Raise (e : exn).

Arguments Ok {A} a.
Arguments Raise {A} e.

(** Calls to the collaborators, in the order the driver makes them. *)
Inductive event : Type :=
| EvWrite (addr : Z) (buf : list Z)
| EvRead (addr : Z) (count : Z)
| EvSleep (seconds : Q).

(** The bus as the driver needs it: [i2c.writeto(addr, buf)] and
    [i2c.readfrom(addr, n)].  Either may raise, and [readfrom] may return a
    buffer of any length. *)
Class I2C (B : Type) : Type := {
  writeto : B -> Z -> list Z -> result unit * B;
  readfrom : B -> Z -> Z -> result (list Z) * B
}.

Record world (B : Type) : Type := mkWorld {
  bus : B;
  trace : list event
}.

Arguments mkWorld {B} bus trace.
Arguments bus {B} w.
Arguments trace {B} w.

(** The driver's computations: state passing over the world, with
    exceptions.  The world outlives a raise, as in Python. *)
Definition M (B A : Type) : Type := world B -> result A * world B.

Definition ret {B A : Type} (a : A) : M B A := fun w => (Ok a, w).

Definition raise {B A : Type} (e : exn) : M B A := fun w => (Raise e, w).

Definition bind {B A C : Type} (m : M B A) (k : A -> M B C) : M B C :=
  fun w =>
    match m w with
    | (Ok a, w') => k a w'
    | (Raise e, w') => (Raise e, w')
    end.

Definition lift {B A : Type} (r : result A) : M B A := fun w => (r, w).

(** [try: body / except Exception: pass]. *)
Definition try_except_Exception_pass {B : Type} (body : M B unit) : M B unit :=
  fun w =>
    match body w with
    | (Ok u, w') => (Ok u, w')
    | (Raise e, w') => if is_Exception e then (Ok tt, w') else (Raise e, w')
    end.

Declare Scope drv_scope.
Delimit Scope drv_scope with drv.
Notation "x <- m ;; k" := (bind m (fun x => k))
  (at level 61, m at next level, right associativity) : drv_scope.
Notation "m ;;; k" := (bind m (fun _ => k))
  (at level 61, right associativity) : drv_scope.

(** Bind of plain results, for the loops that touch no collaborator. *)
Definition rbind {A C : Type} (r : result A) (k : A -> result C) : result C :=
  match r with
  | Ok a => k a
  | Raise e => Raise e
  end.

(** [bytes(l)]: every element must be in [range(0, 256)]. *)
Definition in_byte_range (x : Z) : bool := (0 <=? x) && (x <=? 255).

Definition bytes_of (l : list Z) : result (list Z) :=
  if forallb in_byte_range l then Ok l
  else Raise (ValueError "bytes must be in range(0, 256)").

(** [l[i]] for a non-negative index. *)
Definition index (l : list Z) (i : Z) : result Z :=
  match nth_error l (Z.to_nat i) with
  | Some x => Ok x
  | None => Raise (IndexError "index out of range")
  end.

(** [range(n)]: empty when [n <= 0]. *)
Definition range (n : Z) : list Z := map Z.of_nat (seq 0 (Z.to_nat n)).

(** ["%d" % z]. *)
Definition fmt_d (z : Z) : string := NilZero.string_of_int (Z.to_int z).

(** ["SGP30: expected %d bytes, got %d" % (expected, got)]. *)
Definition framing_message (expected got : Z) : string :=
  ("SGP30: expected " ++ fmt_d expected ++ " bytes, got " ++ fmt_d got)%string.

(** Truth value of a number: nonzero. *)
Definition truthy (d : Q) : bool := negb (Qnum d =? 0).

(** [int(x)] on a real: truncation towards zero. *)
Definition int_of_real (x : Q) : Z := Z.quot (Qnum x) (Z.pos (Qden x)).

(** *** Python numbers

    The argument of [set_absolute_humidity] is a Python number: an [int],
    which is unbounded, or a [float].  A float is a finite real, an infinity
    or a NaN.  The float format depends on the build (MicroPython has single
    and double precision ports), so the largest finite float is a parameter,
    [float_max], of what follows. *)
Inductive pyfloat : Type :=
| Finite (q : Q)
| PosInf
| NegInf
| NaN.

Inductive number : Type :=
| PyInt (z : Z)
| PyFloat (f : pyfloat).

(** [x <= 0]; every comparison with a NaN is false. *)
Definition le_zero (x : number) : bool :=
  match x with
  | PyInt z => z <=? 0
  | PyFloat (Finite q) => Qle_bool q 0
  | PyFloat NegInf => true
  | PyFloat PosInf => false
  | PyFloat NaN => false
  end.

(** The float of an exact result: past the largest finite float it is an
    infinity. *)
Definition float_of_real (float_max : Q) (q : Q) : pyfloat :=
  if Qle_bool q float_max
  then if Qle_bool (- float_max) q then Finite q else NegInf
  else PosInf.

(** [x * 256].  On an [int] the product is exact.  On a finite float it is
    exact too, 256 being a power of two, unless it overflows. *)
Definition mul_256 (float_max : Q) (x : number) : number :=
  match x with
  | PyInt z => PyInt (z * 256)
  | PyFloat (Finite q) => PyFloat (float_of_real float_max (q * 256))
  | PyFloat f => PyFloat f
  end.

(** [int(x)]: an infinity raises [OverflowError], a NaN [ValueError] (the
    message is MicroPython's). *)
Definition int_of_number (x : number) : result Z :=
  match x with
  | PyInt z => Ok z
  | PyFloat (Finite q) => Ok (int_of_real q)
  | PyFloat NaN => Raise (ValueError "can't convert NaN to int")
  | PyFloat _ => Raise (OtherException "OverflowError")
  end.

(** The largest finite float in double and in single precision. *)
Definition binary64_max : Q := inject_Z ((2 ^ 53 - 1) * 2 ^ 971).
Definition binary32_max : Q := inject_Z ((2 ^ 24 - 1) * 2 ^ 104).

(** ** Constants (lines 24-35) *)

Definition SGP30_DEFAULT_I2C_ADDR : Z := 0x58.

Definition _CMD_INIT_AIR_QUALITY : Z * Z := (0x20, 0x03).
Definition _CMD_MEASURE_IAQ : Z * Z := (0x20, 0x08).
Definition _CMD_GET_IAQ_BASELINE : Z * Z := (0x20, 0x15).
Definition _CMD_SET_IAQ_BASELINE : Z * Z := (0x20, 0x1E).
Definition _CMD_MEASURE_RAW : Z * Z := (0x20, 0x50).
Definition _CMD_MEASURE_TEST : Z * Z := (0x20, 0x32).
Definition _CMD_SET_ABSOLUTE_HUMIDITY : Z * Z := (0x20, 0x61).
Definition _CMD_GET_SERIAL_ID : Z * Z := (0x36, 0x82).
Definition _CMD_SOFT_RESET : Z * Z := (0x00, 0x06).

Record SGP30Reading : Type := mkReading {
  equivalent_co2 : Z;
  total_voc : Z
}.

(** The driver object: [self.i2c] lives in the world, [self.address] here. *)
Record SGP30 : Type := mkSGP30 {
  address : Z
}.

(** ** Transport framer *)

Section Driver.

Context {B : Type} `{I2C B}.

Open Scope drv_scope.

Definition i2c_writeto (addr : Z) (buf : list Z) : M B unit :=
  fun w =>
    let (r, b') := writeto (bus w) addr buf in
    (r, mkWorld b' (trace w ++ [EvWrite addr buf])).

Definition i2c_readfrom (addr : Z) (count : Z) : M B (list Z) :=
  fun w =>
    let (r, b') := readfrom (bus w) addr count in
    (r, mkWorld b' (trace w ++ [EvRead addr count])).

Definition sleep (seconds : Q) : M B unit :=
  fun w => (Ok tt, mkWorld (bus w) (trace w ++ [EvSleep seconds])).

(** [_cmd_to_bytes] (line 66). *)
Definition _cmd_to_bytes (cmd : Z * Z) : result (list Z) :=
  bytes_of [fst cmd; snd cmd].

(** The three bytes appended for one argument (lines 75-78). *)
Definition arg_group (value : Z) : result (list Z) :=
  let hi := Z.land (Z.shiftr value 8) 0xFF in
  let lo := Z.land value 0xFF in
  let crc := _crc8 [hi; lo] in
  bytes_of [hi; lo; crc].

(** [for value in arguments: ... buf.extend(...)] (lines 74-78). *)
Fixpoint extend_arguments (buf : list Z) (arguments : list Z) : result (list Z) :=
  match arguments with
  | [] => Ok buf
  | value :: rest =>
      rbind (arg_group value) (fun g => extend_arguments (buf ++ g) rest)
  end.

(** The buffer [_write_command] hands to the bus (lines 73-78). *)
Definition command_buf (cmd : Z * Z) (arguments : list Z) : result (list Z) :=
  rbind (_cmd_to_bytes cmd) (fun buf => extend_arguments buf arguments).

Definition _write_command (self : SGP30) (cmd : Z * Z) (arguments : list Z)
  : M B unit :=
  buf <- lift (command_buf cmd arguments) ;;
  i2c_writeto (address self) buf.

Definition _read_bytes (self : SGP30) (count : Z) (delay : Q) : M B (list Z) :=
  (if truthy delay then sleep delay else ret tt) ;;;
  i2c_readfrom (address self) count.

(** The body of [for i in range(n_words)] (lines 98-103). *)
Definition read_word (raw : list Z) (i : Z) (words : list Z) : result (list Z) :=
  rbind (index raw (i * 3)) (fun a =>
  rbind (index raw (i * 3 + 1)) (fun b =>
  rbind (index raw (i * 3 + 2)) (fun crc =>
  if negb (_crc8 [a; b] =? crc)
  then Raise (OSError "SGP30 CRC mismatch")
  else Ok (words ++ [Z.lor (Z.shiftl a 8) b])))).

Fixpoint read_words_loop (raw : list Z) (idxs : list Z) (words : list Z)
  : result (list Z) :=
  match idxs with
  | [] => Ok words
  | i :: rest =>
      rbind (read_word raw i words) (fun words' => read_words_loop raw rest words')
  end.

(** Lines 94-104: what [_read_words_with_crc] does with the buffer read. *)
Definition check_and_decode (n_words : Z) (raw : list Z) : result (list Z) :=
  if negb (Z.of_nat (List.length raw) =? n_words * 3)
  then Raise (OSError (framing_message (n_words * 3)
                                         (Z.of_nat (List.length raw))))
  else read_words_loop raw (range n_words) [].

Definition _read_words_with_crc (self : SGP30) (n_words : Z) (delay : Q)
  : M B (list Z) :=
  raw <- _read_bytes self (n_words * 3) delay ;;
  lift (check_and_decode n_words raw).

(** ** Command layer *)

Definition init_air_quality (self : SGP30) : M B unit :=
  _write_command self _CMD_INIT_AIR_QUALITY [] ;;;
  sleep (1 # 100).

Definition measure_iaq (self : SGP30) : M B SGP30Reading :=
  _write_command self _CMD_MEASURE_IAQ [] ;;;
  words <- _read_words_with_crc self 2 (15 # 1000) ;;
  w0 <- lift (index words 0) ;;
  w1 <- lift (index words 1) ;;
  ret (mkReading w0 w1).

Definition measure_raw (self : SGP30) : M B (Z * Z) :=
  _write_command self _CMD_MEASURE_RAW [] ;;;
  words <- _read_words_with_crc self 2 (2 # 100) ;;
  w0 <- lift (index words 0) ;;
  w1 <- lift (index words 1) ;;
  ret (w0, w1).

Definition measure_test (self : SGP30) : M B bool :=
  _write_command self _CMD_MEASURE_TEST [] ;;;
  words <- _read_words_with_crc self 1 (2 # 10) ;;
  w0 <- lift (index words 0) ;;
  ret (w0 =? 0xD400).

(** Returns [(eco2_baseline, tvoc_baseline)]. *)
Definition get_baseline (self : SGP30) : M B (Z * Z) :=
  _write_command self _CMD_GET_IAQ_BASELINE [] ;;;
  words <- _read_words_with_crc self 2 (15 # 1000) ;;
  tvoc_baseline <- lift (index words 0) ;;
  eco2_baseline <- lift (index words 1) ;;
  ret (eco2_baseline, tvoc_baseline).

Definition set_baseline (self : SGP30) (eCO2 TVOC : Z) : M B unit :=
  if (eCO2 =? 0) && (TVOC =? 0)
  then raise (ValueError "Invalid baseline: both zero")
  else _write_command self _CMD_SET_IAQ_BASELINE
         [Z.land TVOC 0xFFFF; Z.land eCO2 0xFFFF].

(** The word [set_absolute_humidity] sends (lines 163-165); [int] raises
    when the product is not finite. *)
Definition humidity_word (float_max : Q) (grams_per_m3 : number) : result Z :=
  rbind (int_of_number (mul_256 float_max grams_per_m3)) (fun i =>
  let val := Z.land i 0xFFFF in
  Ok (if val =? 0 then 1 else val)).

Definition set_absolute_humidity (float_max : Q) (self : SGP30)
           (grams_per_m3 : number) : M B unit :=
  if le_zero grams_per_m3
  then raise (ValueError "absolute humidity must be positive (g/m3)")
  else val <- lift (humidity_word float_max grams_per_m3) ;;
       _write_command self _CMD_SET_ABSOLUTE_HUMIDITY [val].

Definition get_serial_id (self : SGP30) : M B Z :=
  _write_command self _CMD_GET_SERIAL_ID [] ;;;
  words <- _read_words_with_crc self 3 (1 # 1000) ;;
  w0 <- lift (index words 0) ;;
  w1 <- lift (index words 1) ;;
  w2 <- lift (index words 2) ;;
  ret (Z.lor (Z.lor (Z.shiftl w0 32) (Z.shiftl w1 16)) w2).

Definition soft_reset (self : SGP30) : M B unit :=
  try_except_Exception_pass (_write_command self _CMD_SOFT_RESET []).

End Driver.

(** The world in which [_read_bytes] meets the bus. *)
Definition after_delay {B : Type} (delay : Q) (w : world B) : world B :=
  if truthy delay then mkWorld (bus w) (trace w ++ [EvSleep delay]) else w.

(** ** Reading the frames

    The three bytes of a word on the wire: high byte, low byte, checksum of
    the two. *)
Definition word_group (value : Z) : list Z :=
  let hi := Z.land (Z.shiftr value 8) 0xFF in
  let lo := Z.land value 0xFF in
  [hi; lo; _crc8 [hi; lo]].

(** Group [i] of a response carries the checksum of its two data bytes. *)
Definition group_ok (raw : list Z) (i : Z) : bool :=
  match index raw (i * 3), index raw (i * 3 + 1), index raw (i * 3 + 2) with
  | Ok a, Ok b, Ok crc => _crc8 [a; b] =? crc
  | _, _, _ => false
  end.

(** The word of group [i], high byte first. *)
Definition word_at (raw : list Z) (i : Z) : Z :=
  match index raw (i * 3), index raw (i * 3 + 1) with
  | Ok a, Ok b => Z.lor (Z.shiftl a 8) b
  | _, _ => 0
  end.

Definition is_word (w : Z) : Prop := 0 <= w <= 0xFFFF.

(** The frame [set_baseline] hands to the bus: opcode, then the group of
    the TVOC baseline, then the group of the eCO2 baseline. *)
Definition baseline_frame (eCO2 TVOC : Z) : list Z :=
  [0x20; 0x1E] ++ word_group TVOC ++ word_group eCO2.

Definition crc_mismatch : exn := OSError "SGP30 CRC mismatch".

(** *** The humidity word of a real

    The real value of a number that has one. *)
Definition real_of (x : number) : Q :=
  match x with
  | PyInt z => inject_Z z
  | PyFloat (Finite q) => q
  | PyFloat _ => 0
  end.

(** A positive input whose product with 256 is finite: a positive [int],
    or a positive finite float with [value * 256] within the floats. *)
Definition positive_finite (float_max : Q) (x : number) : Prop :=
  match x with
  | PyInt z => 0 < z
  | PyFloat (Finite q) => (0 < q /\ q * 256 <= float_max)%Q
  | PyFloat _ => False
  end.

(** 8.8 fixed point by truncation: [int(value * 256)] on the exact product,
    masked to 16 bits, 0 replaced by 1. *)
Definition fixed_point (value : Q) : Z :=
  let val := Z.land (int_of_real (value * 256)) 0xFFFF in
  if val =? 0 then 1 else val.

(** *** The humidity word as the specification words it

    [round(value * 256)] masked to 16 bits, a result of 0 replaced by 1.
    [round] is Python's: to the nearest integer, a tie to the even one. *)
Definition round_half_even (x : Q) : Z :=
  let f := Qfloor x in
  match Qcompare (x - inject_Z f) (1 # 2) with
  | Lt => f
  | Gt => f + 1
  | Eq => if Z.even f then f else f + 1
  end.

Definition spec_humidity_word (value : Q) : Z :=
  let fixed := Z.land (round_half_even (value * 256)) 0xFFFF in
  if fixed =? 0 then 1 else fixed.

(** ** A scripted bus, for running the driver

    [writeto] fails with [write_fault] when there is one; [readfrom] answers
    with [reply] whatever the count asked for. *)
Record scripted_bus : Type := mkScripted {
  write_fault : option exn;
  reply : result (list Z)
}.

#[export] Instance scripted_I2C : I2C scripted_bus := {
  writeto b _ _ :=
    (match write_fault b with Some e => Raise e | None => Ok tt end, b);
  readfrom b _ _ := (reply b, b)
}.

Definition sensor : SGP30 := mkSGP30 SGP30_DEFAULT_I2C_ADDR.

Definition quiet (r : result (list Z)) : world scripted_bus :=
  mkWorld (mkScripted None r) [].

Definition faulty (e : exn) : world scripted_bus :=
  mkWorld (mkScripted (Some e) (Ok [])) [].

(** The buffers written to the bus, read off a trace. *)
Definition writes (t : list event) : list (list Z) :=
  flat_map (fun ev => match ev with EvWrite _ buf => [buf] | _ => [] end) t.

(** Bus accesses (writes and reads) of a trace. *)
Definition bus_accesses (t : list event) : list event :=
  filter (fun ev => match ev with EvSleep _ => false | _ => true end) t.


(** ** Runs of the driver on the scripted bus *)

Example crc8_vectors :
  _crc8 [] = 0xFF /\ _crc8 [0xBE; 0xEF] = 0x92 /\ _crc8 [0; 0] = 0x81
  /\ serial_crc8 [0xBE; 0xEF] = 0x92 /\ spec_crc8 [0xBE; 0xEF] = 0x92.
Proof. repeat split. Qed.

Example measure_iaq_run :
  measure_iaq sensor (quiet (Ok [0x01; 0x90; _crc8 [0x01; 0x90];
                                 0x00; 0x07; _crc8 [0x00; 0x07]]))
  = (Ok (mkReading 400 7),
     mkWorld (mkScripted None (Ok [0x01; 0x90; 0x4C; 0x00; 0x07; 0x16]))
       [EvWrite 0x58 [0x20; 0x08]; EvSleep (15 # 1000); EvRead 0x58 6]).
Proof. reflexivity. Qed.

Example get_serial_id_run :
  fst (get_serial_id sensor
         (quiet (Ok (word_group 0x0001 ++ word_group 0x0203
                       ++ word_group 0x0405))))
  = Ok 0x000102030405.
Proof. reflexivity. Qed.

Example read_without_delay :
  trace (snd (_read_words_with_crc sensor 1 0 (quiet (Ok (word_group 5)))))
  = [EvRead 0x58 3].
Proof. reflexivity. Qed.

Example soft_reset_interrupt :
  fst (soft_reset sensor (faulty (BaseOnly "KeyboardInterrupt")))
  = Raise (BaseOnly "KeyboardInterrupt").
Proof. reflexivity. Qed.

(** ** The checksum engine: proofs *)

Section CrcFacts.

Lemma testbit_255 (n : Z) : 0 <= n -> Z.testbit 0xFF n = (n <? 8).
Proof.
  intros Hn. change 0xFF with (Z.ones 8).
  rewrite Z.testbit_ones by lia.
  destruct (Z.leb_spec 0 n); [reflexivity | lia].
Qed.

Lemma land_0x80 (x : Z) : (Z.land x 0x80 =? 0) = negb (Z.testbit x 7).
Proof.
  assert (E : Z.land x 0x80 = if Z.testbit x 7 then 0x80 else 0).
  { apply Z.bits_inj'. intros n Hn.
    rewrite Z.land_spec. change 0x80 with (2 ^ 7).
    rewrite Z.pow2_bits_eqb by lia.
    destruct (Z.eqb_spec 7 n) as [<- | Hne].
    - rewrite andb_true_r. destruct (Z.testbit x 7).
      + rewrite Z.pow2_bits_eqb by lia. reflexivity.
      + rewrite Z.bits_0. reflexivity.
    - rewrite andb_false_r. destruct (Z.testbit x 7).
      + rewrite Z.pow2_bits_eqb by lia.
        symmetry. apply Z.eqb_neq. exact Hne.
      + rewrite Z.bits_0. reflexivity. }
  rewrite E. destruct (Z.testbit x 7); reflexivity.
Qed.

Lemma crc_shift_alt (x : Z) :
  crc_shift x = Z.lxor (shl8 x) (poly (Z.testbit x 7)).
Proof.
  unfold crc_shift, shl8, poly. rewrite land_0x80, negb_involutive.
  destruct (Z.testbit x 7); [reflexivity | now rewrite Z.lxor_0_r].
Qed.

Lemma serial_step_alt (reg : Z) (m : bool) :
  serial_step reg m = Z.lxor (shl8 reg) (poly (xorb (Z.testbit reg 7) m)).
Proof.
  unfold serial_step, shl8, poly.
  destruct (xorb (Z.testbit reg 7) m); [reflexivity | now rewrite Z.lxor_0_r].
Qed.

Lemma shl8_lxor (x y : Z) : shl8 (Z.lxor x y) = Z.lxor (shl8 x) (shl8 y).
Proof.
  unfold shl8. rewrite Z.shiftl_lxor.
  apply Z.bits_inj'. intros n Hn.
  rewrite Z.land_spec, !Z.lxor_spec, !Z.land_spec.
  destruct (Z.testbit 0xFF n); rewrite ?andb_true_r, ?andb_false_r; reflexivity.
Qed.

Lemma poly_xorb (a b : bool) : poly (xorb a b) = Z.lxor (poly a) (poly b).
Proof. destruct a, b; reflexivity. Qed.

Lemma shl8_testbit (x n : Z) :
  0 <= n -> Z.testbit (shl8 x) n = (n <? 8) && Z.testbit x (n - 1).
Proof.
  intros Hn. unfold shl8.
  rewrite Z.land_spec, Z.shiftl_spec, testbit_255 by lia.
  apply andb_comm.
Qed.

Lemma shl8_range (x : Z) : 0 <= shl8 x <= 255.
Proof.
  unfold shl8. change (Z.land ?a 0xFF) with (Z.land a (Z.ones 8)).
  rewrite Z.land_ones by lia. change (2 ^ 8) with 256.
  pose proof (Z.mod_pos_bound (Z.shiftl x 1) 256 eq_refl). lia.
Qed.

(** XOR keeps two 8-bit values within 8 bits. *)
Lemma lxor_range (x y : Z) :
  0 <= x <= 255 -> 0 <= y <= 255 -> 0 <= Z.lxor x y <= 255.
Proof.
  intros Hx Hy.
  assert (E : Z.lxor x y = Z.land (Z.lxor x y) (Z.ones 8)).
  { apply Z.bits_inj'. intros n Hn.
    rewrite Z.land_spec, Z.lxor_spec, Z.testbit_ones by lia.
    destruct (Z.leb_spec 0 n); [| lia].
    destruct (Z.ltb_spec n 8); simpl; [now rewrite andb_true_r |].
    rewrite andb_false_r.
    rewrite (Z.bits_above_log2 x n), (Z.bits_above_log2 y n); try reflexivity;
      try lia.
    - destruct (Z.eq_dec y 0) as [-> | Hy0]; [simpl; lia |].
      apply Z.lt_le_trans with 8; [| lia].
      apply Z.log2_lt_pow2; lia.
    - destruct (Z.eq_dec x 0) as [-> | Hx0]; [simpl; lia |].
      apply Z.lt_le_trans with 8; [| lia].
      apply Z.log2_lt_pow2; lia. }
  rewrite E, Z.land_ones by lia. change (2 ^ 8) with 256.
  pose proof (Z.mod_pos_bound (Z.lxor x y) 256 eq_refl). lia.
Qed.

Lemma crc_shift_range (x : Z) : 0 <= crc_shift x <= 255.
Proof.
  rewrite crc_shift_alt. apply lxor_range; [apply shl8_range |].
  unfold poly. destruct (Z.testbit x 7); lia.
Qed.

Lemma crc_shifts_range (n : nat) (x : Z) :
  0 <= x <= 255 -> 0 <= crc_shifts n x <= 255.
Proof.
  revert x. induction n as [| n IH]; intros x Hx; simpl; [exact Hx |].
  apply IH, crc_shift_range.
Qed.

Lemma crc_byte_range (crc byte : Z) : 0 <= crc_byte crc byte <= 255.
Proof.
  unfold crc_byte. change (crc_shifts 8 (Z.lxor crc byte))
    with (crc_shifts 7 (crc_shift (Z.lxor crc byte))).
  apply crc_shifts_range, crc_shift_range.
Qed.

Lemma fold_crc_byte_range (data : list Z) (crc : Z) :
  0 <= crc <= 255 -> 0 <= fold_left crc_byte data crc <= 255.
Proof.
  revert crc. induction data as [| byte data IH]; intros crc Hc; simpl.
  - exact Hc.
  - apply IH, crc_byte_range.
Qed.

Lemma crc8_range (data : list Z) : 0 <= _crc8 data <= 255.
Proof. unfold _crc8. apply fold_crc_byte_range. lia. Qed.

(** *** The source agrees with the specification's wording *)

Lemma spec_round_crc_shift (x : Z) : spec_round x = crc_shift x.
Proof.
  unfold spec_round, crc_shift. rewrite land_0x80, negb_involutive.
  change 256 with (2 ^ 8).
  destruct (Z.testbit x 7); rewrite <- Z.land_ones by lia; [| reflexivity].
  apply Z.bits_inj'. intros n Hn.
  rewrite Z.land_spec, !Z.lxor_spec, Z.land_spec.
  change (Z.ones 8) with 0xFF. rewrite testbit_255 by lia.
  destruct (Z.ltb_spec n 8).
  - now rewrite !andb_true_r.
  - rewrite !andb_false_r, xorb_false_l.
    symmetry. apply Z.bits_above_log2; [lia |].
    change (Z.log2 0x31) with 5. lia.
Qed.

Lemma iter_spec_round (n : nat) (x : Z) :
  Nat.iter n spec_round x = crc_shifts n x.
Proof.
  revert x. induction n as [| n IH]; intros x; [reflexivity |].
  rewrite Nat.iter_succ_r. simpl. rewrite spec_round_crc_shift. apply IH.
Qed.

Lemma spec_crc8_fold (b : list Z) (acc : Z) :
  fold_right (fun byte k acc => k (Nat.iter 8 spec_round (Z.lxor acc byte)))
             (fun acc => acc) b acc
  = fold_left crc_byte b acc.
Proof.
  revert acc. induction b as [| byte b IH]; intros acc; [reflexivity |].
  cbn [fold_right fold_left]. rewrite IH. unfold crc_byte at 2.
  now rewrite iter_spec_round.
Qed.

Lemma crc8_spec_crc8 (b : list Z) : _crc8 b = spec_crc8 b.
Proof. unfold spec_crc8, _crc8. symmetry. apply spec_crc8_fold. Qed.

(** *** The source computes the bit-serial CRC *)

Lemma crc_shift_serial (x y : Z) :
  crc_shift (Z.lxor x y)
  = Z.lxor (serial_step x (Z.testbit y 7)) (shl8 y).
Proof.
  rewrite crc_shift_alt, serial_step_alt, shl8_lxor, Z.lxor_spec, poly_xorb.
  apply Z.bits_inj'. intros n _. rewrite !Z.lxor_spec.
  destruct (Z.testbit (shl8 x) n), (Z.testbit (shl8 y) n),
    (Z.testbit (poly (Z.testbit x 7)) n), (Z.testbit (poly (Z.testbit y 7)) n);
    reflexivity.
Qed.

(** After [k] turns the two registers differ by what is left of the byte. *)
Lemma crc_shifts_serial (k : nat) : forall c d : Z,
  crc_shifts k (Z.lxor c d)
  = Z.lxor (fold_left serial_step
              (map (fun i => Z.testbit (Nat.iter i shl8 d) 7) (seq 0 k)) c)
           (Nat.iter k shl8 d).
Proof.
  induction k as [| k IH]; intros c d; [reflexivity |].
  cbn [crc_shifts]. rewrite crc_shift_serial, IH.
  rewrite <- Nat.iter_succ_r. f_equal.
  cbn [seq map fold_left Nat.iter]. f_equal.
  rewrite <- seq_shift, map_map. apply map_ext. intros i.
  now rewrite <- Nat.iter_succ_r.
Qed.

Lemma iter_shl8_testbit (k : nat) : forall d n : Z,
  0 <= n < 8 ->
  Z.testbit (Nat.iter k shl8 d) n
  = (Z.of_nat k <=? n) && Z.testbit d (n - Z.of_nat k).
Proof.
  induction k as [| k IH]; intros d n Hn.
  - change (Nat.iter 0 shl8 d) with d.
    replace (n - Z.of_nat 0) with n by lia.
    destruct (Z.leb_spec (Z.of_nat 0) n); [reflexivity | lia].
  - rewrite Nat.iter_succ, shl8_testbit by lia.
    destruct (Z.ltb_spec n 8); [| lia]. cbn [andb].
    destruct (Z.eq_dec n 0) as [-> | Hn0].
    + rewrite Z.testbit_neg_r by lia.
      destruct (Z.leb_spec (Z.of_nat (S k)) 0); [lia | reflexivity].
    + rewrite IH by lia.
      replace (n - 1 - Z.of_nat k) with (n - Z.of_nat (S k)) by lia.
      f_equal.
      destruct (Z.leb_spec (Z.of_nat k) (n - 1)),
        (Z.leb_spec (Z.of_nat (S k)) n); try reflexivity; lia.
Qed.

Lemma iter8_shl8 (d : Z) : Nat.iter 8 shl8 d = 0.
Proof.
  apply Z.bits_inj'. intros n Hn. rewrite Z.bits_0.
  change (Nat.iter 8 shl8 d) with (shl8 (Nat.iter 7 shl8 d)).
  rewrite shl8_testbit by lia.
  destruct (Z.ltb_spec n 8); [| reflexivity]. cbn [andb].
  destruct (Z.eq_dec n 0) as [-> | Hn0]; [now rewrite Z.testbit_neg_r |].
  rewrite iter_shl8_testbit by lia.
  destruct (Z.leb_spec (Z.of_nat 7) (n - 1)); [lia | reflexivity].
Qed.

Lemma crc_byte_serial (crc byte : Z) :
  crc_byte crc byte = fold_left serial_step (bits_msb_first byte) crc.
Proof.
  unfold crc_byte. rewrite crc_shifts_serial, iter8_shl8, Z.lxor_0_r.
  f_equal. unfold bits_msb_first. cbn [seq map].
  rewrite !iter_shl8_testbit by lia. reflexivity.
Qed.

Lemma fold_crc_byte_serial (b : list Z) (crc : Z) :
  fold_left crc_byte b crc
  = fold_left serial_step (flat_map bits_msb_first b) crc.
Proof.
  revert crc. induction b as [| byte b IH]; intros crc; [reflexivity |].
  cbn [fold_left flat_map]. rewrite fold_left_app, IH.
  now rewrite crc_byte_serial.
Qed.

Lemma crc8_serial_crc8 (b : list Z) : _crc8 b = serial_crc8 b.
Proof. apply fold_crc_byte_serial. Qed.

End CrcFacts.

(** C1.  For every byte sequence the checksum is one byte, in [0,255]; it is
    the CRC-8 of the specification (accumulator 0xFF, eight shift-and-XOR
    rounds with 0x31 per byte, top bit first, nothing XORed at the end),
    which is the bit-serial CRC of the message fed most significant bit
    first; the empty sequence gives 0xFF and [0xBE, 0xEF] gives 0x92. *)
Theorem crc8_checksum :
  (forall b : list Z,
      0 <= _crc8 b <= 255 /\ _crc8 b = spec_crc8 b /\ _crc8 b = serial_crc8 b)
  /\ _crc8 [] = 0xFF
  /\ _crc8 [0xBE; 0xEF] = 0x92.
Proof.
  split; [| split; reflexivity].
  intros b. split; [apply crc8_range |].
  split; [apply crc8_spec_crc8 | apply crc8_serial_crc8].
Qed.

(** ** The transport framer: proofs *)

Section FramerFacts.

Context {B : Type} `{I2C B}.

Lemma land_255_range (x : Z) : 0 <= Z.land x 0xFF <= 255.
Proof.
  change (Z.land x 0xFF) with (Z.land x (Z.ones 8)).
  rewrite Z.land_ones by lia. change (2 ^ 8) with 256.
  pose proof (Z.mod_pos_bound x 256 eq_refl). lia.
Qed.

Lemma in_byte_range_iff (x : Z) : in_byte_range x = true <-> is_byte x.
Proof. unfold in_byte_range, is_byte. lia. Qed.

(** [bytes([hi, lo, crc])] never raises: the three values are bytes. *)
Lemma arg_group_ok (value : Z) : arg_group value = Ok (word_group value).
Proof.
  unfold arg_group, word_group, bytes_of. cbn [forallb].
  pose proof (land_255_range (Z.shiftr value 8)) as Hhi.
  pose proof (land_255_range value) as Hlo.
  pose proof (crc8_range [Z.land (Z.shiftr value 8) 0xFF; Z.land value 0xFF])
    as Hcrc.
  rewrite (proj2 (in_byte_range_iff _) Hhi), (proj2 (in_byte_range_iff _) Hlo),
    (proj2 (in_byte_range_iff _) Hcrc).
  reflexivity.
Qed.

Lemma extend_arguments_ok (arguments : list Z) : forall buf : list Z,
  extend_arguments buf arguments = Ok (buf ++ flat_map word_group arguments).
Proof.
  induction arguments as [| value rest IH]; intros buf; cbn [extend_arguments].
  - now rewrite app_nil_r.
  - rewrite arg_group_ok. cbn [rbind flat_map].
    now rewrite IH, app_assoc.
Qed.

(** The frame of a command: two opcode bytes, then one group per argument. *)
Lemma command_buf_ok (cmd : Z * Z) (arguments : list Z) :
  is_byte (fst cmd) -> is_byte (snd cmd) ->
  command_buf cmd arguments
  = Ok ([fst cmd; snd cmd] ++ flat_map word_group arguments).
Proof.
  intros H0 H1. unfold command_buf, _cmd_to_bytes, bytes_of. cbn [forallb].
  rewrite (proj2 (in_byte_range_iff _) H0), (proj2 (in_byte_range_iff _) H1).
  cbn [andb rbind]. apply extend_arguments_ok.
Qed.

(** [_write_command] makes one bus write, of the whole frame, and its
    outcome is the bus's. *)
Lemma write_command_run (self : SGP30) (cmd : Z * Z) (arguments : list Z)
      (w : world B) :
  is_byte (fst cmd) -> is_byte (snd cmd) ->
  let buf := [fst cmd; snd cmd] ++ flat_map word_group arguments in
  _write_command self cmd arguments w
  = (fst (writeto (bus w) (address self) buf),
     mkWorld (snd (writeto (bus w) (address self) buf))
             (trace w ++ [EvWrite (address self) buf])).
Proof.
  intros H0 H1 buf. unfold _write_command, bind, lift.
  rewrite command_buf_ok by assumption. fold buf. unfold i2c_writeto.
  destruct (writeto (bus w) (address self) buf); reflexivity.
Qed.

Lemma read_words_run (self : SGP30) (n_words : Z) (delay : Q) (w : world B) :
  let r := readfrom (bus w) (address self) (n_words * 3) in
  _read_words_with_crc self n_words delay w
  = (rbind (fst r) (check_and_decode n_words),
     mkWorld (snd r)
             (trace (after_delay delay w)
                ++ [EvRead (address self) (n_words * 3)])).
Proof.
  unfold _read_words_with_crc, _read_bytes, bind, after_delay, i2c_readfrom,
    lift.
  destruct (truthy delay); unfold sleep, ret; cbn [bus trace];
    destruct (readfrom (bus w) (address self) (n_words * 3)) as [[raw | e] b'];
    reflexivity.
Qed.

Lemma index_in_range (l : list Z) (i : Z) :
  0 <= i < Z.of_nat (List.length l) -> exists x, index l i = Ok x.
Proof.
  intros Hi. unfold index.
  destruct (nth_error l (Z.to_nat i)) as [x |] eqn:E; [now exists x |].
  apply nth_error_None in E. lia.
Qed.

Lemma read_word_spec (raw : list Z) (i : Z) (words : list Z) :
  0 <= i -> i * 3 + 2 < Z.of_nat (List.length raw) ->
  read_word raw i words
  = if group_ok raw i then Ok (words ++ [word_at raw i]) else Raise crc_mismatch.
Proof.
  intros Hi Hlen. unfold read_word, group_ok, word_at.
  destruct (index_in_range raw (i * 3) ltac:(lia)) as [a ->].
  destruct (index_in_range raw (i * 3 + 1) ltac:(lia)) as [b ->].
  destruct (index_in_range raw (i * 3 + 2) ltac:(lia)) as [c ->].
  cbn [rbind]. destruct (_crc8 [a; b] =? c); reflexivity.
Qed.

Lemma read_words_loop_spec (raw : list Z) (idxs : list Z) :
  (forall i, In i idxs -> 0 <= i /\ i * 3 + 2 < Z.of_nat (List.length raw)) ->
  forall words : list Z,
    read_words_loop raw idxs words
    = if forallb (group_ok raw) idxs
      then Ok (words ++ map (word_at raw) idxs)
      else Raise crc_mismatch.
Proof.
  induction idxs as [| i rest IH]; intros Hin words; cbn [read_words_loop].
  - cbn [forallb map]. now rewrite app_nil_r.
  - destruct (Hin i (or_introl eq_refl)) as [Hi Hlen].
    rewrite read_word_spec by assumption. cbn [forallb map].
    destruct (group_ok raw i); cbn [rbind andb]; [| reflexivity].
    rewrite IH by (intros j Hj; apply Hin; now right).
    now rewrite <- app_assoc.
Qed.

Lemma in_range (n i : Z) : In i (range n) <-> 0 <= i < n.
Proof.
  unfold range. rewrite in_map_iff. split.
  - intros [k [<- Hk]]. apply in_seq in Hk. lia.
  - intros Hi. exists (Z.to_nat i). split; [lia |]. apply in_seq. lia.
Qed.

(** A buffer of the right length decodes to all its words or to none. *)
Lemma check_and_decode_spec (n_words : Z) (raw : list Z) :
  Z.of_nat (List.length raw) = n_words * 3 ->
  check_and_decode n_words raw
  = if forallb (group_ok raw) (range n_words)
    then Ok (map (word_at raw) (range n_words))
    else Raise crc_mismatch.
Proof.
  intros Hlen. unfold check_and_decode.
  rewrite (proj2 (Z.eqb_eq _ _) Hlen). cbn [negb].
  apply read_words_loop_spec. intros i Hi. apply in_range in Hi. lia.
Qed.

Lemma check_and_decode_short (n_words : Z) (raw : list Z) :
  Z.of_nat (List.length raw) <> n_words * 3 ->
  check_and_decode n_words raw
  = Raise (OSError (framing_message (n_words * 3)
                                    (Z.of_nat (List.length raw)))).
Proof.
  intros Hlen. unfold check_and_decode.
  now rewrite (proj2 (Z.eqb_neq _ _) Hlen).
Qed.

(** Big-endian reassembly undoes the split into high and low byte. *)
Lemma word_reassemble (w : Z) :
  Z.lor (Z.shiftl (Z.land (Z.shiftr w 8) 0xFF) 8) (Z.land w 0xFF)
  = Z.land w 0xFFFF.
Proof.
  apply Z.bits_inj'. intros n Hn.
  rewrite Z.lor_spec, !Z.land_spec, Z.shiftl_spec by lia.
  change 0xFFFF with (Z.ones 16). rewrite Z.testbit_ones by lia.
  rewrite testbit_255 by lia.
  destruct (Z.leb_spec 0 n); [| lia]. cbn [andb].
  destruct (Z.ltb_spec n 8).
  - rewrite Z.testbit_neg_r by lia.
    destruct (Z.ltb_spec n 16); [| lia]. cbn [orb]. reflexivity.
  - rewrite andb_false_r, orb_false_r, Z.land_spec, Z.shiftr_spec by lia.
    rewrite testbit_255 by lia.
    replace (n - 8 + 8) with n by lia.
    destruct (Z.ltb_spec (n - 8) 8), (Z.ltb_spec n 16); try lia; reflexivity.
Qed.

Lemma land_word (w : Z) : is_word w -> Z.land w 0xFFFF = w.
Proof.
  intros Hw. unfold is_word in Hw. change 0xFFFF with (Z.ones 16).
  rewrite Z.land_ones by lia. apply Z.mod_small.
  change (2 ^ 16) with 65536. lia.
Qed.

(** The encoder looks at the low 16 bits only. *)
Lemma word_group_land (v : Z) : word_group (Z.land v 0xFFFF) = word_group v.
Proof.
  assert (Hhi : Z.land (Z.shiftr (Z.land v 0xFFFF) 8) 0xFF
                = Z.land (Z.shiftr v 8) 0xFF).
  { apply Z.bits_inj'. intros n Hn.
    rewrite !Z.land_spec, !Z.shiftr_spec, Z.land_spec by lia.
    rewrite testbit_255 by lia. change 0xFFFF with (Z.ones 16).
    rewrite Z.testbit_ones by lia.
    destruct (Z.ltb_spec n 8); [| now rewrite !andb_false_r].
    destruct (Z.leb_spec 0 (n + 8)), (Z.ltb_spec (n + 8) 16); try lia.
    now rewrite !andb_true_r. }
  assert (Hlo : Z.land (Z.land v 0xFFFF) 0xFF = Z.land v 0xFF).
  { rewrite <- Z.land_assoc. reflexivity. }
  unfold word_group. now rewrite Hhi, Hlo.
Qed.

(** One group, as written, decodes to the low 16 bits of its word. *)
Lemma decode_word_group (v : Z) :
  check_and_decode 1 (word_group v) = Ok [Z.land v 0xFFFF].
Proof.
  unfold check_and_decode, word_group. cbn [List.length].
  change (Z.of_nat 3 =? 1 * 3) with true. cbn [negb].
  change (range 1) with [0]. cbn [read_words_loop].
  unfold read_word, index.
  change (Z.to_nat (0 * 3)) with 0%nat.
  change (Z.to_nat (0 * 3 + 1)) with 1%nat.
  change (Z.to_nat (0 * 3 + 2)) with 2%nat. cbn [nth_error rbind].
  rewrite Z.eqb_refl. cbn [negb app]. now rewrite word_reassemble.
Qed.

(** Two groups, as the sensor sends them for a two-word response. *)
Lemma decode_two_groups (v0 v1 : Z) :
  check_and_decode 2 (word_group v0 ++ word_group v1)
  = Ok [Z.land v0 0xFFFF; Z.land v1 0xFFFF].
Proof.
  unfold check_and_decode, word_group. cbn [List.length app].
  change (Z.of_nat 6 =? 2 * 3) with true. cbn [negb].
  change (range 2) with [0; 1]. cbn [read_words_loop].
  unfold read_word, index.
  change (Z.to_nat (0 * 3)) with 0%nat.
  change (Z.to_nat (0 * 3 + 1)) with 1%nat.
  change (Z.to_nat (0 * 3 + 2)) with 2%nat.
  change (Z.to_nat (1 * 3)) with 3%nat.
  change (Z.to_nat (1 * 3 + 1)) with 4%nat.
  change (Z.to_nat (1 * 3 + 2)) with 5%nat. cbn [nth_error rbind].
  rewrite Z.eqb_refl. cbn [negb app rbind].
  rewrite Z.eqb_refl. cbn [negb app rbind].
  now rewrite !word_reassemble.
Qed.

(** *** Any number of words

    The groups of a list of words, one after the other, decode to the
    list. *)
Lemma length_groups (ws : list Z) :
  List.length (flat_map word_group ws) = (List.length ws * 3)%nat.
Proof.
  induction ws as [| v ws IH]; [reflexivity |].
  cbn [flat_map]. rewrite length_app, IH. reflexivity.
Qed.

Lemma nth_error_groups (ws : list Z) : forall i j : nat,
  (i < List.length ws)%nat -> (j < 3)%nat ->
  nth_error (flat_map word_group ws) (i * 3 + j)
  = nth_error (word_group (nth i ws 0)) j.
Proof.
  induction ws as [| v ws IH]; intros i j Hi Hj; cbn [List.length] in Hi;
    [lia |].
  cbn [flat_map]. destruct i as [| i].
  - cbn [nth Nat.mul Nat.add]. apply nth_error_app1. cbn [word_group List.length].
    exact Hj.
  - rewrite nth_error_app2 by (cbn [word_group List.length]; lia).
    cbn [nth word_group List.length].
    replace (S i * 3 + j - 3)%nat with (i * 3 + j)%nat by lia.
    apply IH; lia.
Qed.

Lemma index_groups (ws : list Z) (i : nat) (j : Z) :
  (i < List.length ws)%nat -> 0 <= j < 3 ->
  index (flat_map word_group ws) (Z.of_nat i * 3 + j)
  = index (word_group (nth i ws 0)) j.
Proof.
  intros Hi Hj. unfold index.
  replace (Z.to_nat (Z.of_nat i * 3 + j)) with (i * 3 + Z.to_nat j)%nat by lia.
  rewrite nth_error_groups by lia. reflexivity.
Qed.

Lemma group_ok_groups (ws : list Z) (i : nat) :
  (i < List.length ws)%nat ->
  group_ok (flat_map word_group ws) (Z.of_nat i) = true.
Proof.
  intros Hi. unfold group_ok.
  rewrite <- (Z.add_0_r (Z.of_nat i * 3)) at 1.
  rewrite !index_groups by lia.
  unfold index, word_group. cbn [Z.to_nat Pos.to_nat Pos.iter_op Nat.add nth_error].
  apply Z.eqb_refl.
Qed.

Lemma word_at_groups (ws : list Z) (i : nat) :
  (i < List.length ws)%nat ->
  word_at (flat_map word_group ws) (Z.of_nat i) = Z.land (nth i ws 0) 0xFFFF.
Proof.
  intros Hi. unfold word_at.
  rewrite <- (Z.add_0_r (Z.of_nat i * 3)) at 1.
  rewrite !index_groups by lia.
  unfold index, word_group. cbn [Z.to_nat Pos.to_nat Pos.iter_op Nat.add nth_error].
  apply word_reassemble.
Qed.

Lemma words_roundtrip (ws : list Z) :
  Forall is_word ws ->
  check_and_decode (Z.of_nat (List.length ws)) (flat_map word_group ws)
  = Ok ws.
Proof.
  intros Hws.
  rewrite check_and_decode_spec by (rewrite length_groups; lia).
  unfold range. rewrite Nat2Z.id.
  assert (Hok : forallb (group_ok (flat_map word_group ws))
                  (map Z.of_nat (seq 0 (List.length ws))) = true).
  { apply forallb_forall. intros z Hz. apply in_map_iff in Hz.
    destruct Hz as [i [<- Hi]]. apply in_seq in Hi.
    apply group_ok_groups. lia. }
  rewrite Hok, map_map. f_equal.
  apply nth_error_ext. intros i.
  destruct (Nat.lt_ge_cases i (List.length ws)) as [Hi | Hi].
  - rewrite nth_error_map, nth_error_seq.
    destruct (Nat.ltb_spec i (List.length ws)); [| lia]. cbn [option_map Nat.add].
    rewrite word_at_groups by assumption.
    rewrite (nth_error_nth' ws 0 Hi). f_equal.
    apply land_word. rewrite Forall_forall in Hws. apply Hws.
    now apply nth_In.
  - rewrite (proj2 (nth_error_None ws i) Hi).
    apply nth_error_None. now rewrite length_map, length_seq.
Qed.

(** A command followed by more work: the write happens first, and a raise
    of the bus ends the operation. *)
Lemma write_then_run {A : Type} (self : SGP30) (cmd : Z * Z)
      (arguments : list Z) (k : M B A) (s : world B) :
  is_byte (fst cmd) -> is_byte (snd cmd) ->
  let buf := [fst cmd; snd cmd] ++ flat_map word_group arguments in
  let r := writeto (bus s) (address self) buf in
  let s' := mkWorld (snd r) (trace s ++ [EvWrite (address self) buf]) in
  bind (_write_command self cmd arguments) (fun _ => k) s
  = match fst r with
    | Ok _ => k s'
    | Raise e => (Raise e, s')
    end.
Proof.
  intros H0 H1 buf r s'. unfold bind.
  rewrite write_command_run by assumption. fold buf. fold r. fold s'.
  destruct (fst r); reflexivity.
Qed.

(** Reading words followed by more work. *)
Lemma read_then_run {A : Type} (self : SGP30) (n_words : Z) (delay : Q)
      (k : list Z -> M B A) (s : world B) :
  let r := readfrom (bus s) (address self) (n_words * 3) in
  let s' := mkWorld (snd r)
              (trace (after_delay delay s)
                 ++ [EvRead (address self) (n_words * 3)]) in
  bind (_read_words_with_crc self n_words delay) k s
  = match rbind (fst r) (check_and_decode n_words) with
    | Ok words => k words s'
    | Raise e => (Raise e, s')
    end.
Proof.
  intros r s'. unfold bind. rewrite read_words_run. fold r. fold s'.
  destruct (rbind (fst r) (check_and_decode n_words)); reflexivity.
Qed.

Lemma cmd_bytes :
  Forall (fun cmd => is_byte (fst cmd) /\ is_byte (snd cmd))
    [_CMD_INIT_AIR_QUALITY; _CMD_MEASURE_IAQ; _CMD_GET_IAQ_BASELINE;
     _CMD_SET_IAQ_BASELINE; _CMD_MEASURE_RAW; _CMD_MEASURE_TEST;
     _CMD_SET_ABSOLUTE_HUMIDITY; _CMD_GET_SERIAL_ID; _CMD_SOFT_RESET].
Proof. repeat constructor; cbn; lia. Qed.

End FramerFacts.

(** The opcodes are bytes, so [_cmd_to_bytes] does not raise on them. *)
Ltac cmd_is_byte := unfold is_byte; cbn; lia.



(** C2.  Every 16-bit word survives the trip.  [_write_command] puts [w] on
    the wire as the group (high byte, low byte, checksum of the two) after
    the opcode, and [_read_words_with_crc], on a bus that answers with that
    same group, accepts the checksum and returns exactly [w]. *)
Theorem word_roundtrip {B : Type} `{I2C B} (self : SGP30) (cmd : Z * Z)
        (delay : Q) (w : Z) (Hw : 0 <= w <= 0xFFFF)
        (Hc0 : is_byte (fst cmd)) (Hc1 : is_byte (snd cmd)) :
  exists hi lo : Z,
    hi = Z.land (Z.shiftr w 8) 0xFF /\ lo = Z.land w 0xFF
    /\ arg_group w = Ok [hi; lo; _crc8 [hi; lo]]
    /\ (forall s : world B,
          trace (snd (_write_command self cmd [w] s))
          = trace s ++ [EvWrite (address self)
                          ([fst cmd; snd cmd] ++ [hi; lo; _crc8 [hi; lo]])])
    /\ check_and_decode 1 [hi; lo; _crc8 [hi; lo]] = Ok [w]
    /\ (forall s : world B,
          fst (readfrom (bus s) (address self) 3)
          = Ok [hi; lo; _crc8 [hi; lo]] ->
          fst (_read_words_with_crc self 1 delay s) = Ok [w]).
Proof.
  exists (Z.land (Z.shiftr w 8) 0xFF), (Z.land w 0xFF).
  change [Z.land (Z.shiftr w 8) 0xFF; Z.land w 0xFF;
          _crc8 [Z.land (Z.shiftr w 8) 0xFF; Z.land w 0xFF]]
    with (word_group w).
  assert (Hdec : check_and_decode 1 (word_group w) = Ok [w]).
  { rewrite decode_word_group. now rewrite land_word. }
  repeat split.
  - apply arg_group_ok.
  - intros s. rewrite write_command_run by assumption.
    cbn [snd trace flat_map]. now rewrite app_nil_r.
  - exact Hdec.
  - intros s Hs. rewrite read_words_run. cbn [fst].
    change (1 * 3) with 3. rewrite Hs. exact Hdec.
Qed.

Lemma word_roundtrip_witness :
  fst (_read_words_with_crc sensor 1 (1 # 1000)
         (quiet (Ok [0xD4; 0x00; _crc8 [0xD4; 0x00]])))
  = Ok [0xD400].
Proof.
  destruct (word_roundtrip (B := scripted_bus) sensor _CMD_SET_ABSOLUTE_HUMIDITY
              (1 # 1000) 0xD400)
    as [hi [lo [Hhi [Hlo [_ [_ [_ Hread]]]]]]];
    [lia | unfold is_byte; simpl; lia | unfold is_byte; simpl; lia |].
  subst hi lo. apply Hread. reflexivity.
Defined.

(** C3.  On a buffer of the right length, [_read_words_with_crc] recomputes
    the checksum of the first two bytes of every group and compares it with
    the third.  One mismatch anywhere makes it raise the checksum error, and
    then no word is returned; it returns words only when every group
    verifies, and then it returns all of them. *)
Theorem read_words_checksum {B : Type} `{I2C B} (self : SGP30) (n_words : Z)
        (delay : Q) (s : world B) (raw : list Z)
        (Hread : fst (readfrom (bus s) (address self) (n_words * 3)) = Ok raw)
        (Hlen : Z.of_nat (List.length raw) = n_words * 3) :
  ((exists i, 0 <= i < n_words /\ group_ok raw i = false) ->
   fst (_read_words_with_crc self n_words delay s) = Raise crc_mismatch)
  /\ ((forall i, 0 <= i < n_words -> group_ok raw i = true) ->
      fst (_read_words_with_crc self n_words delay s)
      = Ok (map (word_at raw) (range n_words)))
  /\ (forall words,
        fst (_read_words_with_crc self n_words delay s) = Ok words ->
        forall i, 0 <= i < n_words -> group_ok raw i = true).
Proof.
  rewrite read_words_run. cbn [fst]. rewrite Hread. cbn [rbind].
  rewrite check_and_decode_spec by assumption.
  destruct (forallb (group_ok raw) (range n_words)) eqn:E.
  - rewrite forallb_forall in E. split; [| split].
    + intros [i [Hi Hbad]]. rewrite E in Hbad by now apply in_range.
      discriminate.
    + reflexivity.
    + intros words _ i Hi. apply E. now apply in_range.
  - split; [reflexivity | split].
    + intros Hall. assert (forallb (group_ok raw) (range n_words) = true).
      { apply forallb_forall. intros i Hi. apply Hall. now apply in_range. }
      congruence.
    + intros words Hok. discriminate.
Qed.

Lemma read_words_checksum_witness :
  fst (_read_words_with_crc sensor 2 (15 # 1000)
         (quiet (Ok [0; 200; _crc8 [0; 200]; 0; 100; 7])))
  = Raise crc_mismatch.
Proof.
  refine (proj1 (read_words_checksum sensor 2 (15 # 1000)
                   (quiet (Ok [0; 200; _crc8 [0; 200]; 0; 100; 7]))
                   [0; 200; _crc8 [0; 200]; 0; 100; 7] eq_refl eq_refl) _).
  exists 1. split; [lia | reflexivity].
Defined.

(** C4.  When the bus returns a buffer whose length is not [n_words * 3],
    [_read_words_with_crc] raises the framing-length error and decodes
    nothing; it returns words only when the length is [n_words * 3]. *)
Theorem read_words_framing {B : Type} `{I2C B} (self : SGP30) (n_words : Z)
        (delay : Q) (s : world B) (raw : list Z)
        (Hread : fst (readfrom (bus s) (address self) (n_words * 3)) = Ok raw) :
  (Z.of_nat (List.length raw) <> n_words * 3 ->
   fst (_read_words_with_crc self n_words delay s)
   = Raise (OSError (framing_message (n_words * 3)
                                     (Z.of_nat (List.length raw)))))
  /\ (forall words,
        fst (_read_words_with_crc self n_words delay s) = Ok words ->
        Z.of_nat (List.length raw) = n_words * 3).
Proof.
  rewrite read_words_run. cbn [fst]. rewrite Hread. cbn [rbind]. split.
  - intros Hlen. now apply check_and_decode_short.
  - intros words Hok.
    destruct (Z.eq_dec (Z.of_nat (List.length raw)) (n_words * 3)) as [E | E];
      [exact E |].
    rewrite check_and_decode_short in Hok by assumption. discriminate.
Qed.

Lemma read_words_framing_witness :
  fst (_read_words_with_crc sensor 2 (15 # 1000) (quiet (Ok [1; 2; 3; 4; 5])))
  = Raise (OSError "SGP30: expected 6 bytes, got 5").
Proof.
  refine (proj1 (read_words_framing sensor 2 (15 # 1000)
                   (quiet (Ok [1; 2; 3; 4; 5])) [1; 2; 3; 4; 5] eq_refl) _).
  cbn. lia.
Defined.

(** ** The command layer: proofs *)

Section CommandFacts.

Context {B : Type} `{I2C B}.

(** [set_baseline] with a pair that passes the check: one write, of the
    baseline frame, whose outcome is the bus's. *)
Lemma set_baseline_run (self : SGP30) (eCO2 TVOC : Z) (s : world B) :
  (eCO2 =? 0) && (TVOC =? 0) = false ->
  let r := writeto (bus s) (address self) (baseline_frame eCO2 TVOC) in
  set_baseline self eCO2 TVOC s
  = (fst r,
     mkWorld (snd r)
       (trace s ++ [EvWrite (address self) (baseline_frame eCO2 TVOC)])).
Proof.
  intros Hnz r. unfold set_baseline. rewrite Hnz.
  rewrite write_command_run by cmd_is_byte.
  cbn [flat_map fst snd _CMD_SET_IAQ_BASELINE]. rewrite app_nil_r.
  rewrite !word_group_land. reflexivity.
Qed.

Lemma set_baseline_zero (self : SGP30) (s : world B) :
  set_baseline self 0 0 s
  = (Raise (ValueError "Invalid baseline: both zero"), s).
Proof. reflexivity. Qed.

(** [get_baseline] on a bus that takes the command and answers with two
    well-formed groups. *)
Lemma get_baseline_run (self : SGP30) (s : world B) (v0 v1 : Z) :
  let wr := writeto (bus s) (address self) [0x20; 0x15] in
  fst wr = Ok tt ->
  fst (readfrom (snd wr) (address self) 6) = Ok (word_group v0 ++ word_group v1) ->
  fst (get_baseline self s) = Ok (Z.land v1 0xFFFF, Z.land v0 0xFFFF).
Proof.
  intros wr Hwr Hrd. unfold get_baseline.
  rewrite write_then_run by cmd_is_byte.
  cbn [flat_map fst snd _CMD_GET_IAQ_BASELINE app]. fold wr. rewrite Hwr.
  rewrite read_then_run. cbn [bus]. change (2 * 3) with 6.
  rewrite Hrd. cbn [rbind]. rewrite decode_two_groups. reflexivity.
Qed.

Lemma measure_test_run (self : SGP30) (s : world B) (v : Z) :
  let wr := writeto (bus s) (address self) [0x20; 0x32] in
  fst wr = Ok tt ->
  fst (readfrom (snd wr) (address self) 3) = Ok (word_group v) ->
  fst (measure_test self s) = Ok (Z.land v 0xFFFF =? 0xD400).
Proof.
  intros wr Hwr Hrd. unfold measure_test.
  rewrite write_then_run by cmd_is_byte.
  cbn [flat_map fst snd _CMD_MEASURE_TEST app]. fold wr. rewrite Hwr.
  rewrite read_then_run. cbn [bus]. change (1 * 3) with 3.
  rewrite Hrd. cbn [rbind]. rewrite decode_word_group. reflexivity.
Qed.

Lemma positive_passes (float_max : Q) (g : number) :
  positive_finite float_max g -> le_zero g = false.
Proof.
  destruct g as [z | [q | | |]]; cbn [positive_finite le_zero];
    try contradiction.
  - intros Hz. apply Z.leb_gt. exact Hz.
  - intros [Hq _]. destruct (Qle_bool q 0) eqn:E; [| reflexivity].
    apply Qle_bool_iff in E. exfalso. exact (Qlt_not_le _ _ Hq E).
Qed.

(** [int] of an integer times 256, taken as a real. *)
Lemma int_of_real_int (z : Z) : int_of_real (inject_Z z * 256) = z * 256.
Proof.
  unfold int_of_real, inject_Z, Qmult. cbn [Qnum Qden Pos.mul].
  apply Z.quot_1_r.
Qed.

(** A positive product within the floats is a finite float. *)
Lemma float_of_real_finite (float_max x : Q) :
  (0 <= x)%Q -> (x <= float_max)%Q -> float_of_real float_max x = Finite x.
Proof.
  intros H0 Hmax. unfold float_of_real.
  rewrite (proj2 (Qle_bool_iff x float_max) Hmax).
  assert (Hneg : (- float_max <= x)%Q).
  { apply Qle_trans with 0%Q; [| exact H0].
    apply (Qopp_le_compat 0 float_max). now apply Qle_trans with x. }
  now rewrite (proj2 (Qle_bool_iff (- float_max) x) Hneg).
Qed.

(** On a positive input with a finite product, the word is the fixed-point
    word of the input's value. *)
Lemma humidity_word_finite (float_max : Q) (g : number) :
  positive_finite float_max g ->
  humidity_word float_max g = Ok (fixed_point (real_of g)).
Proof.
  destruct g as [z | [q | | |]]; cbn [positive_finite]; try contradiction.
  - intros _. unfold humidity_word, fixed_point.
    cbn [mul_256 int_of_number rbind real_of].
    now rewrite int_of_real_int.
  - intros [Hq Hmax]. unfold humidity_word, fixed_point. cbn [mul_256 real_of].
    rewrite float_of_real_finite; [reflexivity | | exact Hmax].
    apply Qmult_le_0_compat; [now apply Qlt_le_weak | discriminate].
Qed.

Lemma set_absolute_humidity_run (float_max : Q) (self : SGP30) (g : number)
      (s : world B) :
  positive_finite float_max g ->
  let buf := [0x20; 0x61] ++ word_group (fixed_point (real_of g)) in
  let r := writeto (bus s) (address self) buf in
  set_absolute_humidity float_max self g s
  = (fst r, mkWorld (snd r) (trace s ++ [EvWrite (address self) buf])).
Proof.
  intros Hg buf r. unfold set_absolute_humidity.
  rewrite (positive_passes float_max) by assumption.
  unfold bind, lift. rewrite humidity_word_finite by assumption.
  rewrite write_command_run by cmd_is_byte.
  cbn [flat_map fst snd _CMD_SET_ABSOLUTE_HUMIDITY]. rewrite app_nil_r.
  reflexivity.
Qed.

(** The real value of a positive input is positive. *)
Lemma positive_finite_real (float_max : Q) (g : number) :
  positive_finite float_max g -> (0 < real_of g)%Q.
Proof.
  destruct g as [z | [q | | |]]; cbn [positive_finite real_of];
    try contradiction.
  - intros Hz. unfold Qlt, inject_Z. cbn [Qnum Qden]. lia.
  - intros [Hq _]. exact Hq.
Qed.

(** An input that fails the check: the error, and the world untouched. *)
Lemma set_absolute_humidity_rejects (float_max : Q) (self : SGP30)
      (z : number) (s : world B) :
  le_zero z = true ->
  set_absolute_humidity float_max self z s
  = (Raise (ValueError "absolute humidity must be positive (g/m3)"), s).
Proof. intros Hz. unfold set_absolute_humidity. now rewrite Hz. Qed.

(** [int] of a non-negative real is its floor. *)
Lemma int_of_real_floor (x : Q) : (0 <= x)%Q -> int_of_real x = Qfloor x.
Proof.
  destruct x as [n d]. unfold Qle. cbn [Qnum Qden]. intros Hn.
  unfold int_of_real, Qfloor. cbn [Qnum Qden].
  apply Z.quot_div_nonneg; lia.
Qed.

Lemma int_of_real_bounds (x : Q) :
  (0 <= x)%Q ->
  (inject_Z (int_of_real x) <= x /\ x < inject_Z (int_of_real x) + 1)%Q.
Proof.
  intros Hx. rewrite int_of_real_floor by assumption. split.
  - apply Qfloor_le.
  - pose proof (Qlt_floor x) as Hlt.
    now rewrite inject_Z_plus in Hlt.
Qed.

(** The fixed-point word is the truncated product, masked and clamped. *)
Lemma fixed_point_spec (x : Q) :
  (0 < x)%Q ->
  exists n : Z,
    (inject_Z n <= x * 256 /\ x * 256 < inject_Z n + 1)%Q
    /\ fixed_point x = (if Z.land n 0xFFFF =? 0 then 1 else Z.land n 0xFFFF)
    /\ 1 <= fixed_point x <= 0xFFFF.
Proof.
  intros Hx. exists (int_of_real (x * 256)).
  assert (Hnn : (0 <= x * 256)%Q).
  { apply Qmult_le_0_compat; [now apply Qlt_le_weak | discriminate]. }
  split; [now apply int_of_real_bounds |]. split; [reflexivity |].
  unfold fixed_point.
  pose proof (Z.land_nonneg (int_of_real (x * 256)) 0xFFFF) as Hlo.
  assert (Hhi : Z.land (int_of_real (x * 256)) 0xFFFF < 65536).
  { change 0xFFFF with (Z.ones 16). rewrite Z.land_ones by lia.
    apply Z.mod_pos_bound. reflexivity. }
  destruct (Z.eqb_spec (Z.land (int_of_real (x * 256)) 0xFFFF) 0); lia.
Qed.




End CommandFacts.

(** C5.  The baseline travels in the reverse of the logical order, both
    ways.  Whatever the pair (eCO2, TVOC), the only frame [set_baseline] may
    write carries the TVOC group before the eCO2 group (and for the pair
    (0, 0) it writes none); and when the sensor answers [get_baseline] with
    the words (w0, w1), the caller gets (eCO2, TVOC) = (w1, w0). *)
Theorem baseline_wire_order {B : Type} `{I2C B} (self : SGP30) (s : world B)
        (w0 w1 : Z) (Hw0 : is_word w0) (Hw1 : is_word w1)
        (Hwrite : fst (writeto (bus s) (address self) [0x20; 0x15]) = Ok tt)
        (Hread : fst (readfrom
                        (snd (writeto (bus s) (address self) [0x20; 0x15]))
                        (address self) 6)
                 = Ok (word_group w0 ++ word_group w1)) :
  (forall (eCO2 TVOC : Z) (s' : world B),
      writes (trace (snd (set_baseline self eCO2 TVOC s')))
      = writes (trace s')
          ++ (if (eCO2 =? 0) && (TVOC =? 0) then []
              else [[0x20; 0x1E] ++ word_group TVOC ++ word_group eCO2]))
  /\ fst (get_baseline self s) = Ok (w1, w0).
Proof.
  split.
  - intros eCO2 TVOC s'.
    destruct ((eCO2 =? 0) && (TVOC =? 0)) eqn:E.
    + unfold set_baseline. rewrite E. cbn [raise snd]. now rewrite app_nil_r.
    + rewrite set_baseline_run by assumption. cbn [snd trace].
      unfold writes. rewrite flat_map_app. cbn [flat_map].
      now rewrite app_nil_r.
  - rewrite (get_baseline_run self s w0 w1) by assumption.
    now rewrite !land_word.
Qed.

Lemma baseline_wire_order_witness :
  writes (trace (snd (set_baseline sensor 100 200 (quiet (Ok [])))))
  = [[0x20; 0x1E; 0; 200; _crc8 [0; 200]; 0; 100; _crc8 [0; 100]]]
  /\ fst (get_baseline sensor
            (quiet (Ok [0; 200; _crc8 [0; 200]; 0; 100; _crc8 [0; 100]])))
     = Ok (100, 200).
Proof.
  destruct (baseline_wire_order sensor
              (quiet (Ok [0; 200; _crc8 [0; 200]; 0; 100; _crc8 [0; 100]]))
              200 100)
    as [Hset Hget];
    [unfold is_word; lia | unfold is_word; lia | reflexivity | reflexivity |].
  split; [| exact Hget].
  exact (Hset 100 200 (quiet (Ok []))).
Defined.

(** C7.  [set_baseline] with (0, 0) raises the invalid-argument error and
    leaves the world as it was: no bus write, no bus access at all.  With
    any other pair the check passes and the command frame is written. *)
Theorem set_baseline_validation {B : Type} `{I2C B} (self : SGP30)
        (s : world B) (eCO2 TVOC : Z) (Hnz : eCO2 <> 0 \/ TVOC <> 0) :
  set_baseline self 0 0 s
  = (Raise (ValueError "Invalid baseline: both zero"), s)
  /\ writes (trace (snd (set_baseline self 0 0 s))) = writes (trace s)
  /\ fst (set_baseline self eCO2 TVOC s)
     = fst (writeto (bus s) (address self) (baseline_frame eCO2 TVOC))
  /\ trace (snd (set_baseline self eCO2 TVOC s))
     = trace s ++ [EvWrite (address self) (baseline_frame eCO2 TVOC)].
Proof.
  assert (E : (eCO2 =? 0) && (TVOC =? 0) = false).
  { apply andb_false_iff. rewrite !Z.eqb_neq. exact Hnz. }
  split; [reflexivity |]. split; [reflexivity |].
  rewrite set_baseline_run by assumption. split; reflexivity.
Qed.

Lemma set_baseline_validation_witness :
  set_baseline sensor 0 0 (quiet (Ok []))
  = (Raise (ValueError "Invalid baseline: both zero"), quiet (Ok []))
  /\ trace (snd (set_baseline sensor 0 37000 (quiet (Ok []))))
     = [EvWrite 0x58 (baseline_frame 0 37000)].
Proof.
  destruct (set_baseline_validation sensor (quiet (Ok [])) 0 37000)
    as [H0 [_ [_ H1]]]; [right; lia |].
  split; [exact H0 | exact H1].
Defined.

(** C8.  When the sensor answers the self-test with one word,
    [measure_test] returns normally, with true exactly when the word is
    0xD400 and false for every other word. *)
Theorem measure_test_pass {B : Type} `{I2C B} (self : SGP30) (s : world B)
        (word : Z) (Hword : is_word word)
        (Hwrite : fst (writeto (bus s) (address self) [0x20; 0x32]) = Ok tt)
        (Hread : fst (readfrom
                        (snd (writeto (bus s) (address self) [0x20; 0x32]))
                        (address self) 3)
                 = Ok (word_group word)) :
  fst (measure_test self s) = Ok (word =? 0xD400)
  /\ (fst (measure_test self s) = Ok true <-> word = 0xD400)
  /\ (word <> 0xD400 -> fst (measure_test self s) = Ok false).
Proof.
  rewrite (measure_test_run self s word) by assumption.
  rewrite land_word by assumption. split; [reflexivity |]. split.
  - split.
    + intros E. injection E as E. now apply Z.eqb_eq.
    + intros ->. reflexivity.
  - intros Hne. now rewrite (proj2 (Z.eqb_neq _ _) Hne).
Qed.

Lemma measure_test_pass_witness :
  fst (measure_test sensor (quiet (Ok [0xD4; 0x00; _crc8 [0xD4; 0x00]])))
  = Ok true.
Proof.
  refine (proj1 (measure_test_pass sensor
                   (quiet (Ok [0xD4; 0x00; _crc8 [0xD4; 0x00]])) 0xD400
                   _ eq_refl eq_refl)).
  unfold is_word. lia.
Defined.

(** C10.  The masks of [set_baseline] come after its check.  The pair
    (0x10000, 0) is not the pair (0, 0), so the check passes; the frame
    written is the one of the pair (0, 0), and it decodes to the words
    (0, 0). *)
Theorem set_baseline_masks_after_check {B : Type} `{I2C B} (self : SGP30)
        (s : world B) :
  fst (set_baseline self 0x10000 0 s)
  = fst (writeto (bus s) (address self) (baseline_frame 0 0))
  /\ trace (snd (set_baseline self 0x10000 0 s))
     = trace s ++ [EvWrite (address self) (baseline_frame 0 0)]
  /\ baseline_frame 0 0 = [0x20; 0x1E; 0; 0; 0x81; 0; 0; 0x81]
  /\ check_and_decode 2 (skipn 2 (baseline_frame 0 0)) = Ok [0; 0]
  /\ fst (set_baseline self 0 0 s)
     = Raise (ValueError "Invalid baseline: both zero").
Proof.
  rewrite set_baseline_run by reflexivity.
  repeat split; reflexivity.
Qed.



(** C6, as the claim has it, fails: the source truncates where the claim
    rounds.  At 7/1024 g/m3 (a float, exactly) the product with 256 is
    1.75; rounding gives 2 and the driver sends 1, in double and in single
    precision alike. *)
Lemma humidity_round_counterexample :
  (0 < 7 # 1024)%Q
  /\ spec_humidity_word (7 # 1024) = 2
  /\ humidity_word binary64_max (PyFloat (Finite (7 # 1024))) = Ok 1
  /\ humidity_word binary32_max (PyFloat (Finite (7 # 1024))) = Ok 1
  /\ writes (trace (snd (set_absolute_humidity binary64_max sensor
                           (PyFloat (Finite (7 # 1024))) (quiet (Ok [])))))
     = [[0x20; 0x61; 0; 1; _crc8 [0; 1]]].
Proof. repeat split. Qed.

(** C6, amended.  For a positive input whose product with 256 is finite (a
    positive int, or a positive float with [value * 256] no larger than the
    largest finite float), [set_absolute_humidity] sends the 8.8 fixed-point
    word [int(value * 256)], the product truncated (not rounded), masked to
    16 bits, with a result of 0 replaced by 1: 10.0 g/m3 gives 2560 and
    0.002 g/m3 gives 1.  For an input that is zero or negative it raises the
    invalid-argument error and leaves the world as it was, so nothing is
    encoded and the bus is not touched. *)
Theorem humidity_encoding {B : Type} `{I2C B} (float_max : Q) (self : SGP30)
        (s : world B) (g z : number)
        (Hg : positive_finite float_max g) (Hz : le_zero z = true) :
  (exists (n word : Z),
      (inject_Z n <= real_of g * 256 /\ real_of g * 256 < inject_Z n + 1)%Q
      /\ word = (if Z.land n 0xFFFF =? 0 then 1 else Z.land n 0xFFFF)
      /\ 1 <= word <= 0xFFFF
      /\ humidity_word float_max g = Ok word
      /\ fst (set_absolute_humidity float_max self g s)
         = fst (writeto (bus s) (address self)
                  ([0x20; 0x61] ++ word_group word))
      /\ trace (snd (set_absolute_humidity float_max self g s))
         = trace s ++ [EvWrite (address self)
                         ([0x20; 0x61] ++ word_group word)])
  /\ humidity_word binary64_max (PyFloat (Finite 10)) = Ok 2560
  /\ humidity_word binary32_max (PyFloat (Finite 10)) = Ok 2560
  /\ humidity_word binary64_max (PyFloat (Finite (2 # 1000))) = Ok 1
  /\ humidity_word binary32_max (PyFloat (Finite (2 # 1000))) = Ok 1
  /\ set_absolute_humidity float_max self z s
     = (Raise (ValueError "absolute humidity must be positive (g/m3)"), s).
Proof.
  split; [| repeat split; now apply set_absolute_humidity_rejects].
  destruct (fixed_point_spec (real_of g) (positive_finite_real _ _ Hg))
    as [n [Hn [Hword Hrange]]].
  exists n, (fixed_point (real_of g)).
  split; [exact Hn |]. split; [exact Hword |]. split; [exact Hrange |].
  split; [now apply humidity_word_finite |].
  rewrite set_absolute_humidity_run by assumption. split; reflexivity.
Qed.

Lemma humidity_encoding_witness :
  writes (trace (snd (set_absolute_humidity binary64_max sensor
                        (PyFloat (Finite 10)) (quiet (Ok [])))))
  = [[0x20; 0x61] ++ word_group 2560]
  /\ set_absolute_humidity binary64_max sensor (PyFloat (Finite (- (1 # 2))))
       (quiet (Ok []))
     = (Raise (ValueError "absolute humidity must be positive (g/m3)"),
        quiet (Ok [])).
Proof.
  destruct (humidity_encoding binary64_max sensor (quiet (Ok []))
              (PyFloat (Finite 10)) (PyFloat (Finite (- (1 # 2)))))
    as [[n [word [_ [_ [_ [Hword [_ Htrace]]]]]]] [_ [_ [_ [_ Hneg]]]]];
    [split; [reflexivity | discriminate] | reflexivity |].
  vm_compute in Hword. injection Hword as <-.
  split; [| exact Hneg].
  rewrite Htrace. reflexivity.
Defined.

(** ** The checksum as a linear code *)

Section CrcAlgebra.

(** A property checked on the 256 bytes holds of every byte. *)
Lemma byte_cases (P : Z -> bool) :
  forallb P (range 256) = true -> forall x, is_byte x -> P x = true.
Proof.
  intros Hall x Hx. rewrite forallb_forall in Hall.
  apply Hall, in_range. unfold is_byte in Hx. lia.
Qed.

Lemma crc_shift_lxor (x y : Z) :
  crc_shift (Z.lxor x y) = Z.lxor (crc_shift x) (crc_shift y).
Proof.
  rewrite !crc_shift_alt, shl8_lxor, Z.lxor_spec, poly_xorb.
  apply Z.bits_inj'. intros n _. rewrite !Z.lxor_spec.
  destruct (Z.testbit (shl8 x) n), (Z.testbit (shl8 y) n),
    (Z.testbit (poly (Z.testbit x 7)) n), (Z.testbit (poly (Z.testbit y 7)) n);
    reflexivity.
Qed.

Lemma crc_shifts_lxor (n : nat) : forall x y : Z,
  crc_shifts n (Z.lxor x y) = Z.lxor (crc_shifts n x) (crc_shifts n y).
Proof.
  induction n as [| n IH]; intros x y; [reflexivity |].
  cbn [crc_shifts]. now rewrite crc_shift_lxor, IH.
Qed.

(** The generator has a constant term, so a turn of the loop loses
    nothing: only the zero byte goes to zero. *)
Lemma crc_shift_zero_inv (x : Z) : is_byte x -> crc_shift x = 0 -> x = 0.
Proof.
  intros Hx Hz.
  pose proof (byte_cases (fun x => implb (crc_shift x =? 0) (x =? 0))
                eq_refl x Hx) as Hc.
  cbn beta in Hc. rewrite Hz in Hc. now apply Z.eqb_eq.
Qed.

Lemma crc_shifts_zero_inv (n : nat) : forall x : Z,
  is_byte x -> crc_shifts n x = 0 -> x = 0.
Proof.
  induction n as [| n IH]; intros x Hx Hz; [exact Hz |].
  cbn [crc_shifts] in Hz. apply crc_shift_zero_inv; [exact Hx |].
  apply IH; [apply crc_shift_range | exact Hz].
Qed.

Lemma crc_shifts_inj (n : nat) (x y : Z) :
  is_byte x -> is_byte y -> crc_shifts n x = crc_shifts n y -> x = y.
Proof.
  intros Hx Hy E. apply Z.lxor_eq.
  apply (crc_shifts_zero_inv n); [now apply lxor_range |].
  rewrite crc_shifts_lxor, E. apply Z.lxor_nilpotent.
Qed.

(** With the accumulator fixed, distinct bytes give distinct accumulators. *)
Lemma crc_byte_inj (crc x y : Z) :
  is_byte crc -> is_byte x -> is_byte y ->
  crc_byte crc x = crc_byte crc y -> x = y.
Proof.
  intros Hc Hx Hy E. unfold crc_byte in E.
  apply crc_shifts_inj in E; try now apply lxor_range.
  apply (f_equal (Z.lxor crc)) in E.
  now rewrite <- !Z.lxor_assoc, Z.lxor_nilpotent, !Z.lxor_0_l in E.
Qed.

(** With the byte fixed, distinct accumulators stay distinct. *)
Lemma crc_byte_inj_acc (c d x : Z) :
  is_byte c -> is_byte d -> is_byte x ->
  crc_byte c x = crc_byte d x -> c = d.
Proof.
  intros Hc Hd Hx E. unfold crc_byte in E.
  apply crc_shifts_inj in E; try now apply lxor_range.
  apply (f_equal (fun z => Z.lxor z x)) in E. cbn beta in E.
  now rewrite !Z.lxor_assoc, Z.lxor_nilpotent, !Z.lxor_0_r in E.
Qed.

Lemma crc8_pair (a b : Z) : _crc8 [a; b] = crc_byte (crc_byte 0xFF a) b.
Proof. reflexivity. Qed.

Lemma crc8_pair_inj_l (a a' b : Z) :
  is_byte a -> is_byte a' -> is_byte b ->
  _crc8 [a'; b] = _crc8 [a; b] -> a' = a.
Proof.
  intros Ha Ha' Hb E. rewrite !crc8_pair in E.
  apply crc_byte_inj_acc in E; try apply crc_byte_range; try assumption.
  apply crc_byte_inj in E; try assumption. unfold is_byte. lia.
Qed.

Lemma crc8_pair_inj_r (a b b' : Z) :
  is_byte b -> is_byte b' ->
  _crc8 [a; b'] = _crc8 [a; b] -> b' = b.
Proof.
  intros Hb Hb' E. rewrite !crc8_pair in E.
  apply crc_byte_inj in E; try assumption. apply crc_byte_range.
Qed.

End CrcAlgebra.

(** X1.  A group with one byte altered never passes.  Take a group (a, b, c)
    whose checksum is right, and change exactly one of its three bytes to
    another byte: [_read_words_with_crc], given the altered group, raises the
    checksum error.  Every single-bit flip is such a change. *)
Theorem one_byte_corruption_detected {B : Type} `{I2C B} (self : SGP30)
        (delay : Q) (s : world B) (a b c a' b' c' : Z)
        (Ha : is_byte a) (Hb : is_byte b)
        (Ha' : is_byte a') (Hb' : is_byte b')
        (Hvalid : c = _crc8 [a; b])
        (Hone : (a' <> a /\ b' = b /\ c' = c)
                \/ (a' = a /\ b' <> b /\ c' = c)
                \/ (a' = a /\ b' = b /\ c' <> c))
        (Hread : fst (readfrom (bus s) (address self) 3) = Ok [a'; b'; c']) :
  fst (_read_words_with_crc self 1 delay s) = Raise crc_mismatch.
Proof.
  rewrite read_words_run. cbn [fst]. change (1 * 3) with 3.
  rewrite Hread. cbn [rbind].
  assert (Hbad : _crc8 [a'; b'] <> c').
  { destruct Hone as [[Hne [-> ->]] | [[-> [Hne ->]] | [-> [-> Hne]]]].
    - intros E. apply Hne. subst c. now apply (crc8_pair_inj_l a a' b).
    - intros E. apply Hne. subst c. now apply (crc8_pair_inj_r a b b').
    - intros E. apply Hne. now rewrite <- E. }
  unfold check_and_decode. cbn [List.length].
  change (Z.of_nat 3 =? 1 * 3) with true. cbn [negb].
  change (range 1) with [0]. cbn [read_words_loop].
  unfold read_word, index.
  change (Z.to_nat (0 * 3)) with 0%nat.
  change (Z.to_nat (0 * 3 + 1)) with 1%nat.
  change (Z.to_nat (0 * 3 + 2)) with 2%nat. cbn [nth_error rbind].
  now rewrite (proj2 (Z.eqb_neq _ _) Hbad).
Qed.

Lemma one_byte_corruption_detected_witness :
  fst (_read_words_with_crc sensor 1 (2 # 10)
         (quiet (Ok [0xD4; 0x01; _crc8 [0xD4; 0x00]])))
  = Raise crc_mismatch.
Proof.
  apply (one_byte_corruption_detected sensor (2 # 10)
           (quiet (Ok [0xD4; 0x01; _crc8 [0xD4; 0x00]]))
           0xD4 0x00 (_crc8 [0xD4; 0x00]) 0xD4 0x01 (_crc8 [0xD4; 0x00]));
    try (unfold is_byte; lia); reflexivity.
Defined.

(** X2.  The checksum of a message followed by its own checksum is 0, and
    no other byte in that place gives 0: a byte [c] after the message [m]
    brings [_crc8] to 0 exactly when [c] is [_crc8 m]. *)
Theorem crc8_residue (m : list Z) (c : Z) (Hc : is_byte c) :
  _crc8 (m ++ [_crc8 m]) = 0
  /\ (_crc8 (m ++ [c]) = 0 <-> c = _crc8 m).
Proof.
  assert (Hself : _crc8 (m ++ [_crc8 m]) = 0).
  { unfold _crc8. rewrite fold_left_app. cbn [fold_left].
    unfold crc_byte. now rewrite Z.lxor_nilpotent. }
  split; [exact Hself |]. split.
  - intros E. rewrite <- Hself in E. unfold _crc8 in E.
    rewrite !fold_left_app in E. cbn [fold_left] in E.
    apply crc_byte_inj in E; try assumption; apply crc8_range.
  - intros ->. exact Hself.
Qed.

Lemma crc8_residue_witness :
  _crc8 [0xBE; 0xEF; 0x92] = 0.
Proof.
  destruct (crc8_residue [0xBE; 0xEF] 0x92) as [_ [_ Hback]];
    [unfold is_byte; lia |].
  apply Hback. reflexivity.
Defined.

(** ** Frames and words: shape *)

Section FrameShape.

Context {B : Type} `{I2C B}.

Lemma word_group_bytes (v : Z) : Forall is_byte (word_group v).
Proof.
  unfold word_group. repeat constructor;
    try apply land_255_range; apply crc8_range.
Qed.

Lemma groups_bytes (ws : list Z) : Forall is_byte (flat_map word_group ws).
Proof.
  induction ws as [| v ws IH]; [constructor |].
  cbn [flat_map]. apply Forall_app. split; [apply word_group_bytes | exact IH].
Qed.

Lemma byte_high_bits (b n : Z) : is_byte b -> 8 <= n -> Z.testbit b n = false.
Proof.
  intros Hb Hn. unfold is_byte in Hb.
  rewrite <- (Z.mod_small b (2 ^ 8)) by (change (2 ^ 8) with 256; lia).
  apply Z.mod_pow2_bits_high. lia.
Qed.

(** Two bytes, high one first, as a number. *)
Lemma bytes_word (a b : Z) :
  is_byte a -> is_byte b -> Z.lor (Z.shiftl a 8) b = a * 256 + b.
Proof.
  intros Ha Hb.
  assert (Hdisj : Z.land (Z.shiftl a 8) b = 0).
  { apply Z.bits_inj'. intros n Hn.
    rewrite Z.land_spec, Z.bits_0, Z.shiftl_spec by lia.
    destruct (Z.lt_ge_cases n 8).
    - now rewrite Z.testbit_neg_r by lia.
    - rewrite (byte_high_bits b n) by (assumption || lia).
      apply andb_false_r. }
  rewrite <- Z.lxor_lor by assumption.
  rewrite <- Z.add_nocarry_lxor by assumption.
  rewrite Z.shiftl_mul_pow2 by lia. reflexivity.
Qed.

Lemma index_In (l : list Z) (i x : Z) : index l i = Ok x -> In x l.
Proof.
  unfold index. destruct (nth_error l (Z.to_nat i)) as [y |] eqn:E;
    [| discriminate].
  intros Hx. injection Hx as <-. eapply nth_error_In, E.
Qed.

Lemma word_at_is_word (raw : list Z) (i : Z) :
  Forall is_byte raw -> is_word (word_at raw i).
Proof.
  intros Hraw. rewrite Forall_forall in Hraw. unfold word_at.
  destruct (index raw (i * 3)) as [a | e] eqn:Ea; [| unfold is_word; lia].
  destruct (index raw (i * 3 + 1)) as [b | e] eqn:Eb; [| unfold is_word; lia].
  pose proof (Hraw a (index_In _ _ _ Ea)) as Ha.
  pose proof (Hraw b (index_In _ _ _ Eb)) as Hb.
  rewrite bytes_word by assumption. unfold is_word, is_byte in *. lia.
Qed.

End FrameShape.

(** X3.  Any number of words survives the trip.  For a list of 16-bit
    words, the frame the write path builds is the opcode followed by the
    groups of the words in order, and the read path, on a bus that answers
    with those groups, returns the list as it was. *)
Theorem frame_roundtrip {B : Type} `{I2C B} (self : SGP30) (cmd : Z * Z)
        (delay : Q) (s : world B) (ws : list Z)
        (Hc0 : is_byte (fst cmd)) (Hc1 : is_byte (snd cmd))
        (Hws : Forall is_word ws)
        (Hread : fst (readfrom (bus s) (address self)
                        (Z.of_nat (List.length ws) * 3))
                 = Ok (flat_map word_group ws)) :
  command_buf cmd ws = Ok ([fst cmd; snd cmd] ++ flat_map word_group ws)
  /\ fst (_read_words_with_crc self (Z.of_nat (List.length ws)) delay s)
     = Ok ws.
Proof.
  split; [now apply command_buf_ok |].
  rewrite read_words_run. cbn [fst]. rewrite Hread. cbn [rbind].
  now apply words_roundtrip.
Qed.

Lemma frame_roundtrip_witness :
  fst (_read_words_with_crc sensor 3 (1 # 1000)
         (quiet (Ok (flat_map word_group [0x0001; 0xBEEF; 0xFFFF]))))
  = Ok [0x0001; 0xBEEF; 0xFFFF].
Proof.
  refine (proj2 (frame_roundtrip sensor _CMD_GET_SERIAL_ID (1 # 1000)
                   (quiet (Ok (flat_map word_group [0x0001; 0xBEEF; 0xFFFF])))
                   [0x0001; 0xBEEF; 0xFFFF] _ _ _ eq_refl));
    try (unfold is_byte; cbn; lia).
  repeat constructor; unfold is_word; lia.
Defined.

(** X4.  [_write_command] never fails on its own, whatever integers it is
    given as arguments.  With an opcode of two bytes, the buffer it builds
    has 2 + 3n elements for n arguments, starts with the opcode, holds only
    bytes (so [bytes(...)] does not raise), and is handed to the bus in one
    write whose outcome is the outcome of the command. *)
Theorem command_frame_shape {B : Type} `{I2C B} (self : SGP30) (cmd : Z * Z)
        (arguments : list Z) (s : world B)
        (Hc0 : is_byte (fst cmd)) (Hc1 : is_byte (snd cmd)) :
  exists buf : list Z,
    command_buf cmd arguments = Ok buf
    /\ List.length buf = (2 + 3 * List.length arguments)%nat
    /\ firstn 2 buf = [fst cmd; snd cmd]
    /\ Forall is_byte buf
    /\ _write_command self cmd arguments s
       = (fst (writeto (bus s) (address self) buf),
          mkWorld (snd (writeto (bus s) (address self) buf))
                  (trace s ++ [EvWrite (address self) buf])).
Proof.
  exists ([fst cmd; snd cmd] ++ flat_map word_group arguments).
  split; [now apply command_buf_ok |].
  split; [rewrite length_app, length_groups; cbn [List.length]; lia |].
  split; [reflexivity |].
  split.
  - apply Forall_app. split; [| apply groups_bytes].
    apply Forall_cons; [exact Hc0 |].
    apply Forall_cons; [exact Hc1 | apply Forall_nil].
  - now apply write_command_run.
Qed.

Lemma command_frame_shape_witness :
  exists buf : list Z,
    command_buf _CMD_SET_IAQ_BASELINE [-1; 0x12345] = Ok buf
    /\ List.length buf = 8%nat
    /\ Forall is_byte buf.
Proof.
  destruct (command_frame_shape sensor _CMD_SET_IAQ_BASELINE [-1; 0x12345]
              (quiet (Ok [])))
    as [buf [Hbuf [Hlen [_ [Hbytes _]]]]];
    [unfold is_byte; cbn; lia | unfold is_byte; cbn; lia |].
  exists buf. repeat split; assumption.
Defined.

(** X5.  [_read_words_with_crc] touches the collaborators in one way only,
    whatever comes back: it sleeps when the delay is not zero, then makes
    one read of [n_words * 3] bytes at the driver's address.  It writes
    nothing and reads once, also when the read fails or the buffer is
    rejected. *)
Theorem read_words_trace {B : Type} `{I2C B} (self : SGP30) (n_words : Z)
        (delay : Q) (s : world B) :
  snd (_read_words_with_crc self n_words delay s)
  = mkWorld (snd (readfrom (bus s) (address self) (n_words * 3)))
      (trace s
         ++ (if negb (Qnum delay =? 0) then [EvSleep delay] else [])
         ++ [EvRead (address self) (n_words * 3)]).
Proof.
  rewrite read_words_run. cbn [snd]. unfold after_delay, truthy.
  destruct (negb (Qnum delay =? 0)); cbn [trace app].
  - now rewrite <- app_assoc.
  - reflexivity.
Qed.

(** X6.  What [_read_words_with_crc] returns is well formed.  When the bus
    answers with bytes and the call returns words, there are exactly
    [n_words] of them and each is a 16-bit value; so no caller that indexes
    the first [n_words] entries can fall off the list. *)
Theorem read_words_shape {B : Type} `{I2C B} (self : SGP30) (n_words : Z)
        (delay : Q) (s : world B) (raw words : list Z)
        (Hread : fst (readfrom (bus s) (address self) (n_words * 3)) = Ok raw)
        (Hbytes : Forall is_byte raw)
        (Hok : fst (_read_words_with_crc self n_words delay s) = Ok words) :
  Z.of_nat (List.length words) = n_words
  /\ Forall is_word words
  /\ words = map (word_at raw) (range n_words).
Proof.
  rewrite read_words_run in Hok. cbn [fst] in Hok. rewrite Hread in Hok.
  cbn [rbind] in Hok.
  destruct (Z.eq_dec (Z.of_nat (List.length raw)) (n_words * 3)) as [E | E];
    [| rewrite check_and_decode_short in Hok by assumption; discriminate].
  rewrite check_and_decode_spec in Hok by assumption.
  destruct (forallb (group_ok raw) (range n_words)); [| discriminate].
  injection Hok as <-.
  split; [| split; [| reflexivity]].
  - unfold range. rewrite !length_map, length_seq. lia.
  - apply Forall_forall. intros w Hw. apply in_map_iff in Hw.
    destruct Hw as [i [<- _]]. now apply word_at_is_word.
Qed.

Lemma read_words_shape_witness :
  Z.of_nat (List.length [0x0190; 0x0007]) = 2
  /\ Forall is_word [0x0190; 0x0007].
Proof.
  destruct (read_words_shape sensor 2 (15 # 1000)
              (quiet (Ok (word_group 0x0190 ++ word_group 0x0007)))
              (word_group 0x0190 ++ word_group 0x0007) [0x0190; 0x0007])
    as [Hlen [Hw _]];
    [reflexivity | apply (groups_bytes [0x0190; 0x0007]) | reflexivity |].
  split; assumption.
Defined.

(** ** Queries: a command, a delay, a read *)

Section QueryFacts.

Context {B : Type} `{I2C B}.

(** The shape every query shares: the command is written; only when the bus
    took it does the driver sleep and read; only a buffer that decodes
    reaches the rest of the operation. *)
Lemma query_run {A : Type} (self : SGP30) (cmd : Z * Z) (n_words : Z)
      (delay : Q) (k : list Z -> M B A) (s : world B) :
  is_byte (fst cmd) -> is_byte (snd cmd) ->
  let wr := writeto (bus s) (address self) [fst cmd; snd cmd] in
  let s1 := mkWorld (snd wr)
              (trace s ++ [EvWrite (address self) [fst cmd; snd cmd]]) in
  let rd := readfrom (snd wr) (address self) (n_words * 3) in
  let s2 := mkWorld (snd rd)
              (trace (after_delay delay s1)
                 ++ [EvRead (address self) (n_words * 3)]) in
  bind (_write_command self cmd [])
       (fun _ => bind (_read_words_with_crc self n_words delay) k) s
  = match fst wr with
    | Raise e => (Raise e, s1)
    | Ok _ =>
        match rbind (fst rd) (check_and_decode n_words) with
        | Ok words => k words s2
        | Raise e => (Raise e, s2)
        end
    end.
Proof.
  intros H0 H1 wr s1 rd s2. rewrite write_then_run by assumption.
  cbn [flat_map app]. fold wr. fold s1.
  destruct (fst wr) as [u | e]; [| reflexivity].
  rewrite read_then_run. reflexivity.
Qed.

(** Decoding a buffer meant to hold two words. *)
Lemma decode_two (raw : list Z) :
  check_and_decode 2 raw
  = if negb (Z.of_nat (List.length raw) =? 6)
    then Raise (OSError (framing_message 6 (Z.of_nat (List.length raw))))
    else if group_ok raw 0 && group_ok raw 1
         then Ok [word_at raw 0; word_at raw 1]
         else Raise crc_mismatch.
Proof.
  destruct (Z.eqb_spec (Z.of_nat (List.length raw)) 6) as [E | E]; cbn [negb].
  - rewrite check_and_decode_spec by exact E.
    change (range 2) with [0; 1]. cbn [forallb map].
    now rewrite andb_true_r.
  - now rewrite check_and_decode_short by exact E.
Qed.

Lemma index_pair (x y : Z) : index [x; y] 0 = Ok x /\ index [x; y] 1 = Ok y.
Proof. split; reflexivity. Qed.

End QueryFacts.

(** The trace after a query whose delay is a nonzero constant. *)
Ltac query_trace :=
  unfold after_delay, truthy;
  cbn [Qnum Z.eqb negb snd fst trace bus];
  rewrite <- ?app_assoc; reflexivity.

(** X7.  Every outcome of [measure_iaq].  It raises what the bus raises on
    the write, and then neither sleeps nor reads; otherwise it sleeps 15 ms,
    reads 6 bytes, and raises what the bus raises on the read, the
    framing-length error for a buffer that is not 6 long, the checksum error
    when one of the two groups fails; otherwise it returns the reading with
    eCO2 from the first group and TVOC from the second.  It raises nothing
    else, and it never writes twice. *)
Theorem measure_iaq_outcome {B : Type} `{I2C B} (self : SGP30) (s : world B) :
  let wr := writeto (bus s) (address self) [0x20; 0x08] in
  let rd := readfrom (snd wr) (address self) 6 in
  fst (measure_iaq self s)
  = match fst wr with
    | Raise e => Raise e
    | Ok _ =>
        match fst rd with
        | Raise e => Raise e
        | Ok raw =>
            if negb (Z.of_nat (List.length raw) =? 6)
            then Raise (OSError (framing_message 6
                                   (Z.of_nat (List.length raw))))
            else if group_ok raw 0 && group_ok raw 1
                 then Ok (mkReading (word_at raw 0) (word_at raw 1))
                 else Raise crc_mismatch
        end
    end
  /\ trace (snd (measure_iaq self s))
     = trace s
         ++ EvWrite (address self) [0x20; 0x08]
         :: match fst wr with
            | Raise _ => []
            | Ok _ => [EvSleep (15 # 1000); EvRead (address self) 6]
            end.
Proof.
  intros wr rd. unfold measure_iaq.
  rewrite query_run by cmd_is_byte.
  cbn [fst snd _CMD_MEASURE_IAQ]. change (2 * 3) with 6. fold wr. fold rd.
  destruct (fst wr) as [u | e]; [| split; reflexivity].
  destruct (fst rd) as [raw | e]; cbn [rbind];
    [| split; [reflexivity | query_trace]].
  rewrite decode_two.
  destruct (negb (Z.of_nat (List.length raw) =? 6));
    [split; [reflexivity | query_trace] |].
  destruct (group_ok raw 0 && group_ok raw 1);
    (split; [reflexivity | query_trace]).
Qed.

(** X8.  Every outcome of [measure_raw]: as for [measure_iaq], with the
    opcode 0x2050 and a delay of 20 ms; on success the pair is (first word,
    second word), in wire order. *)
Theorem measure_raw_outcome {B : Type} `{I2C B} (self : SGP30) (s : world B) :
  let wr := writeto (bus s) (address self) [0x20; 0x50] in
  let rd := readfrom (snd wr) (address self) 6 in
  fst (measure_raw self s)
  = match fst wr with
    | Raise e => Raise e
    | Ok _ =>
        match fst rd with
        | Raise e => Raise e
        | Ok raw =>
            if negb (Z.of_nat (List.length raw) =? 6)
            then Raise (OSError (framing_message 6
                                   (Z.of_nat (List.length raw))))
            else if group_ok raw 0 && group_ok raw 1
                 then Ok (word_at raw 0, word_at raw 1)
                 else Raise crc_mismatch
        end
    end
  /\ trace (snd (measure_raw self s))
     = trace s
         ++ EvWrite (address self) [0x20; 0x50]
         :: match fst wr with
            | Raise _ => []
            | Ok _ => [EvSleep (2 # 100); EvRead (address self) 6]
            end.
Proof.
  intros wr rd. unfold measure_raw.
  rewrite query_run by cmd_is_byte.
  cbn [fst snd _CMD_MEASURE_RAW]. change (2 * 3) with 6. fold wr. fold rd.
  destruct (fst wr) as [u | e]; [| split; reflexivity].
  destruct (fst rd) as [raw | e]; cbn [rbind];
    [| split; [reflexivity | query_trace]].
  rewrite decode_two.
  destruct (negb (Z.of_nat (List.length raw) =? 6));
    [split; [reflexivity | query_trace] |].
  destruct (group_ok raw 0 && group_ok raw 1);
    (split; [reflexivity | query_trace]).
Qed.

(** X10.  [init_air_quality] writes the opcode 0x2003 and nothing else.  It
    sleeps 10 ms only when the bus took the write; when the write raises,
    the exception goes to the caller at once, with no sleep.  It never
    reads. *)
Theorem init_air_quality_outcome {B : Type} `{I2C B} (self : SGP30)
        (s : world B) :
  let wr := writeto (bus s) (address self) [0x20; 0x03] in
  init_air_quality self s
  = match fst wr with
    | Ok _ =>
        (Ok tt,
         mkWorld (snd wr)
           (trace s ++ [EvWrite (address self) [0x20; 0x03]; EvSleep (1 # 100)]))
    | Raise e =>
        (Raise e,
         mkWorld (snd wr) (trace s ++ [EvWrite (address self) [0x20; 0x03]]))
    end.
Proof.
  intros wr. unfold init_air_quality.
  rewrite write_then_run by cmd_is_byte.
  cbn [flat_map app fst snd _CMD_INIT_AIR_QUALITY]. fold wr.
  destruct (fst wr) as [u | e]; [| reflexivity].
  unfold sleep. cbn [bus trace]. now rewrite <- app_assoc.
Qed.

(** ** Serial number, baseline and humidity: arithmetic *)

Section ValueFacts.

Context {B : Type} `{I2C B}.

(** A value shifted left by [k] and the [k] low bits of another, joined. *)
Lemma lor_shiftl_add (hi lo k : Z) :
  0 <= k -> 0 <= lo < 2 ^ k -> Z.lor (Z.shiftl hi k) lo = hi * 2 ^ k + lo.
Proof.
  intros Hk Hlo.
  assert (Hdisj : Z.land (Z.shiftl hi k) lo = 0).
  { apply Z.bits_inj'. intros n Hn.
    rewrite Z.land_spec, Z.bits_0, Z.shiftl_spec by lia.
    destruct (Z.lt_ge_cases n k).
    - now rewrite Z.testbit_neg_r by lia.
    - rewrite <- (Z.mod_small lo (2 ^ k)) by lia.
      rewrite Z.mod_pow2_bits_high by lia. apply andb_false_r. }
  rewrite <- Z.lxor_lor by assumption.
  rewrite <- Z.add_nocarry_lxor by assumption.
  now rewrite Z.shiftl_mul_pow2 by lia.
Qed.

(** The 48-bit number of three 16-bit words, most significant first. *)
Lemma serial_of_words (w0 w1 w2 : Z) :
  is_word w0 -> is_word w1 -> is_word w2 ->
  Z.lor (Z.lor (Z.shiftl w0 32) (Z.shiftl w1 16)) w2
  = w0 * 2 ^ 32 + w1 * 2 ^ 16 + w2.
Proof.
  unfold is_word. intros H0 H1 H2.
  change 32 with (16 + 16) at 1.
  rewrite <- Z.shiftl_shiftl, <- Z.shiftl_lor by lia.
  rewrite (lor_shiftl_add w0 w1 16) by (change (2 ^ 16) with 65536; lia).
  rewrite lor_shiftl_add by (change (2 ^ 16) with 65536; lia).
  change (2 ^ 32) with 4294967296. change (2 ^ 16) with 65536. lia.
Qed.

(** [get_baseline] on a bus that takes the command and answers with the
    groups of two words: the result and the world. *)
Lemma get_baseline_world (self : SGP30) (s : world B) (w0 w1 : Z) :
  is_word w0 -> is_word w1 ->
  let wr := writeto (bus s) (address self) [0x20; 0x15] in
  let rd := readfrom (snd wr) (address self) 6 in
  fst wr = Ok tt ->
  fst rd = Ok (word_group w0 ++ word_group w1) ->
  get_baseline self s
  = (Ok (w1, w0),
     mkWorld (snd rd)
       (trace s ++ [EvWrite (address self) [0x20; 0x15];
                    EvSleep (15 # 1000); EvRead (address self) 6])).
Proof.
  intros Hw0 Hw1 wr rd Hwr Hrd. unfold get_baseline.
  rewrite query_run by cmd_is_byte.
  cbn [fst snd _CMD_GET_IAQ_BASELINE]. change (2 * 3) with 6.
  fold wr. fold rd. rewrite Hwr, Hrd. cbn [rbind].
  rewrite decode_two_groups, !land_word by assumption.
  unfold bind, lift, ret, index.
  change (Z.to_nat 0) with 0%nat. change (Z.to_nat 1) with 1%nat.
  cbn [nth_error]. f_equal. unfold after_delay, truthy.
  cbn [Qnum Z.eqb negb snd fst trace bus]. now rewrite <- !app_assoc.
Qed.



End ValueFacts.

(** X9.  [get_serial_id] assembles the 48-bit serial number big-endian.
    When the sensor answers with the groups of three 16-bit words
    (w0, w1, w2), the result is w0 * 2^32 + w1 * 2^16 + w2, a number below
    2^48 from which the three words can be read back. *)
Theorem get_serial_id_value {B : Type} `{I2C B} (self : SGP30) (s : world B)
        (w0 w1 w2 : Z)
        (Hw0 : is_word w0) (Hw1 : is_word w1) (Hw2 : is_word w2)
        (Hwrite : fst (writeto (bus s) (address self) [0x36; 0x82]) = Ok tt)
        (Hread : fst (readfrom
                        (snd (writeto (bus s) (address self) [0x36; 0x82]))
                        (address self) 9)
                 = Ok (word_group w0 ++ word_group w1 ++ word_group w2)) :
  exists serial : Z,
    fst (get_serial_id self s) = Ok serial
    /\ serial = w0 * 2 ^ 32 + w1 * 2 ^ 16 + w2
    /\ 0 <= serial < 2 ^ 48
    /\ serial / 2 ^ 32 = w0
    /\ (serial / 2 ^ 16) mod 2 ^ 16 = w1
    /\ serial mod 2 ^ 16 = w2.
Proof.
  exists (w0 * 2 ^ 32 + w1 * 2 ^ 16 + w2).
  split.
  - unfold get_serial_id. rewrite query_run by cmd_is_byte.
    cbn [fst snd _CMD_GET_SERIAL_ID]. change (3 * 3) with 9.
    rewrite Hwrite, Hread. cbn [rbind].
    pose proof (words_roundtrip [w0; w1; w2]) as Hrt.
    cbn [List.length flat_map] in Hrt. rewrite app_nil_r in Hrt.
    change (Z.of_nat 3) with 3 in Hrt.
    rewrite Hrt
      by (apply Forall_cons; [exact Hw0 |];
          apply Forall_cons; [exact Hw1 |];
          apply Forall_cons; [exact Hw2 | apply Forall_nil]).
    unfold bind, lift, ret, index.
    change (Z.to_nat 0) with 0%nat. change (Z.to_nat 1) with 1%nat.
    change (Z.to_nat 2) with 2%nat. cbn [nth_error fst].
    now rewrite serial_of_words.
  - split; [reflexivity |].
    unfold is_word in *.
    change (2 ^ 32) with 4294967296. change (2 ^ 16) with 65536.
    change (2 ^ 48) with 281474976710656.
    repeat split; try lia.
    + symmetry. apply (Z.div_unique _ _ _ (w1 * 65536 + w2)); lia.
    + replace ((w0 * 4294967296 + w1 * 65536 + w2) / 65536)
        with (w0 * 65536 + w1)
        by (apply (Z.div_unique _ _ _ w2); lia).
      symmetry. apply (Z.mod_unique _ _ w0); lia.
    + symmetry. apply (Z.mod_unique _ _ (w0 * 65536 + w1)); lia.
Qed.

Lemma get_serial_id_value_witness :
  exists serial : Z,
    fst (get_serial_id sensor
           (quiet (Ok (word_group 0x0001 ++ word_group 0x0203
                         ++ word_group 0x0405))))
    = Ok serial
    /\ serial = 0x000102030405.
Proof.
  destruct (get_serial_id_value sensor
              (quiet (Ok (word_group 0x0001 ++ word_group 0x0203
                            ++ word_group 0x0405)))
              0x0001 0x0203 0x0405)
    as [serial [Hrun [Hval _]]];
    [unfold is_word; lia | unfold is_word; lia | unfold is_word; lia
     | reflexivity | reflexivity |].
  exists serial. split; [exact Hrun |]. rewrite Hval. reflexivity.
Defined.

(** X11.  Restoring a baseline: [set_baseline] called with the pair that
    [get_baseline] has just returned.  When the
    sensor answers [get_baseline] with the groups of the words (w0, w1) and
    they are not both 0, the frame then written by [set_baseline] carries
    those same two groups in the same order, so the sensor gets back what
    it sent.  When both words are 0 the restore raises the invalid-argument
    error after the read, and writes nothing back. *)
Theorem baseline_restore {B : Type} `{I2C B} (self : SGP30) (s : world B)
        (w0 w1 : Z) (Hw0 : is_word w0) (Hw1 : is_word w1)
        (Hwrite : fst (writeto (bus s) (address self) [0x20; 0x15]) = Ok tt)
        (Hread : fst (readfrom
                        (snd (writeto (bus s) (address self) [0x20; 0x15]))
                        (address self) 6)
                 = Ok (word_group w0 ++ word_group w1)) :
  let restore :=
    bind (get_baseline self) (fun p => set_baseline self (fst p) (snd p)) in
  let asked := [EvWrite (address self) [0x20; 0x15];
                EvSleep (15 # 1000); EvRead (address self) 6] in
  (w0 = 0 /\ w1 = 0 ->
   fst (restore s) = Raise (ValueError "Invalid baseline: both zero")
   /\ trace (snd (restore s)) = trace s ++ asked)
  /\ (w0 <> 0 \/ w1 <> 0 ->
      trace (snd (restore s))
      = trace s ++ asked
          ++ [EvWrite (address self)
                ([0x20; 0x1E] ++ word_group w0 ++ word_group w1)]).
Proof.
  intros restore asked. unfold restore, bind.
  rewrite (get_baseline_world self s w0 w1) by assumption. cbn [fst snd].
  split.
  - intros [-> ->]. split; reflexivity.
  - intros Hnz. rewrite set_baseline_run.
    + cbn [snd trace]. unfold baseline_frame. now rewrite <- app_assoc.
    + apply andb_false_iff. rewrite !Z.eqb_neq. tauto.
Qed.

Lemma baseline_restore_witness :
  writes (trace (snd
    (bind (get_baseline sensor)
          (fun p => set_baseline sensor (fst p) (snd p))
          (quiet (Ok (word_group 0x8A12 ++ word_group 0x91FF))))))
  = [[0x20; 0x15]; [0x20; 0x1E] ++ word_group 0x8A12 ++ word_group 0x91FF].
Proof.
  destruct (baseline_restore sensor
              (quiet (Ok (word_group 0x8A12 ++ word_group 0x91FF)))
              0x8A12 0x91FF)
    as [_ Hback];
    [unfold is_word; lia | unfold is_word; lia | reflexivity | reflexivity |].
  cbv zeta in Hback. rewrite Hback by (left; lia). reflexivity.
Defined.



(** ** The self-test and the degenerate word counts *)

Section EdgeFacts.

Context {B : Type} `{I2C B}.

(** Decoding a buffer meant to hold one word. *)
Lemma decode_one (raw : list Z) :
  check_and_decode 1 raw
  = if negb (Z.of_nat (List.length raw) =? 3)
    then Raise (OSError (framing_message 3 (Z.of_nat (List.length raw))))
    else if group_ok raw 0 then Ok [word_at raw 0] else Raise crc_mismatch.
Proof.
  destruct (Z.eqb_spec (Z.of_nat (List.length raw)) 3) as [E | E]; cbn [negb].
  - rewrite check_and_decode_spec by exact E.
    change (range 1) with [0]. cbn [forallb map].
    now rewrite andb_true_r.
  - now rewrite check_and_decode_short by exact E.
Qed.

End EdgeFacts.

(** X13.  Every outcome of [measure_test].  A failed write or read, a buffer
    that is not 3 long and a group with a wrong checksum each raise; only a
    group that verifies gives a boolean, true when its word is 0xD400.  So
    false always means that the sensor reported a failed self-test, never
    that the answer was lost or damaged. *)
Theorem measure_test_outcome {B : Type} `{I2C B} (self : SGP30) (s : world B) :
  let wr := writeto (bus s) (address self) [0x20; 0x32] in
  let rd := readfrom (snd wr) (address self) 3 in
  fst (measure_test self s)
  = match fst wr with
    | Raise e => Raise e
    | Ok _ =>
        match fst rd with
        | Raise e => Raise e
        | Ok raw =>
            if negb (Z.of_nat (List.length raw) =? 3)
            then Raise (OSError (framing_message 3
                                   (Z.of_nat (List.length raw))))
            else if group_ok raw 0
                 then Ok (word_at raw 0 =? 0xD400)
                 else Raise crc_mismatch
        end
    end
  /\ (fst (measure_test self s) = Ok false ->
      exists raw, fst rd = Ok raw /\ group_ok raw 0 = true
                  /\ word_at raw 0 <> 0xD400).
Proof.
  intros wr rd.
  assert (E : fst (measure_test self s)
              = match fst wr with
                | Raise e => Raise e
                | Ok _ =>
                    match fst rd with
                    | Raise e => Raise e
                    | Ok raw =>
                        if negb (Z.of_nat (List.length raw) =? 3)
                        then Raise (OSError (framing_message 3
                                               (Z.of_nat (List.length raw))))
                        else if group_ok raw 0
                             then Ok (word_at raw 0 =? 0xD400)
                             else Raise crc_mismatch
                    end
                end).
  { unfold measure_test. rewrite query_run by cmd_is_byte.
    cbn [fst snd _CMD_MEASURE_TEST]. change (1 * 3) with 3. fold wr. fold rd.
    destruct (fst wr) as [u | e]; [| reflexivity].
    destruct (fst rd) as [raw | e]; cbn [rbind]; [| reflexivity].
    rewrite decode_one.
    destruct (negb (Z.of_nat (List.length raw) =? 3)); [reflexivity |].
    destruct (group_ok raw 0); reflexivity. }
  split; [exact E |].
  rewrite E. destruct (fst wr) as [u | e]; [| discriminate].
  destruct (fst rd) as [raw | e]; [| discriminate].
  destruct (negb (Z.of_nat (List.length raw) =? 3)); [discriminate |].
  destruct (group_ok raw 0) eqn:Hok; [| discriminate].
  intros Hf. injection Hf as Hf. exists raw.
  split; [reflexivity |]. split; [exact Hok |]. now apply Z.eqb_neq.
Qed.

(** X14.  Degenerate word counts.  Asked for 0 words, the read path still
    makes its read, of 0 bytes, and returns the empty list when the bus
    answers with nothing.  Asked for a negative count it can only fail: no
    buffer has a negative length, so every answer of the bus is a
    framing-length error. *)
Theorem read_words_degenerate {B : Type} `{I2C B} (self : SGP30) (n_words : Z)
        (delay : Q) (s : world B) (raw : list Z)
        (Hn : n_words <= 0)
        (Hread : fst (readfrom (bus s) (address self) (n_words * 3)) = Ok raw) :
  (n_words = 0 -> raw = [] ->
   fst (_read_words_with_crc self n_words delay s) = Ok [])
  /\ (n_words < 0 ->
      fst (_read_words_with_crc self n_words delay s)
      = Raise (OSError (framing_message (n_words * 3)
                                        (Z.of_nat (List.length raw)))))
  /\ (forall words,
         fst (_read_words_with_crc self n_words delay s) = Ok words ->
         words = [] /\ raw = [] /\ n_words = 0).
Proof.
  rewrite read_words_run. cbn [fst]. rewrite Hread. cbn [rbind].
  split; [| split].
  - intros -> ->. reflexivity.
  - intros Hneg. apply check_and_decode_short. lia.
  - intros words Hok.
    destruct (Z.eq_dec (Z.of_nat (List.length raw)) (n_words * 3)) as [E | E];
      [| rewrite check_and_decode_short in Hok by assumption; discriminate].
    assert (n_words = 0) as -> by lia.
    destruct raw as [| x raw]; [| cbn [List.length] in E; lia].
    cbn in Hok. injection Hok as <-. repeat split.
Qed.

Lemma read_words_degenerate_witness :
  fst (_read_words_with_crc sensor (-1) 0 (quiet (Ok [])))
  = Raise (OSError "SGP30: expected -3 bytes, got 0").
Proof.
  refine (proj1 (proj2 (read_words_degenerate sensor (-1) 0 (quiet (Ok []))
                          [] _ eq_refl)) _); lia.
Defined.

(** ** Humidity inputs without a finite product *)

(** X15.  [set_absolute_humidity] on a float it cannot encode.  A positive
    float whose product with 256 lies past the largest finite float, and
    positive infinity, pass the sign check, and [int] then raises
    [OverflowError]; a NaN passes the check too, every comparison with it
    being false, and [int] raises a [ValueError] of its own; negative
    infinity fails the sign check like any negative number.  In each case
    the exception comes before the command is written: the world is left
    as it was. *)
Theorem humidity_not_finite {B : Type} `{I2C B} (float_max : Q)
        (self : SGP30) (s : world B) (g : Q)
        (Hg : (0 < g)%Q) (Hover : (float_max < g * 256)%Q) :
  set_absolute_humidity float_max self (PyFloat (Finite g)) s
  = (Raise (OtherException "OverflowError"), s)
  /\ set_absolute_humidity float_max self (PyFloat PosInf) s
     = (Raise (OtherException "OverflowError"), s)
  /\ (exists msg : string,
         set_absolute_humidity float_max self (PyFloat NaN) s
         = (Raise (ValueError msg), s)
         /\ msg <> "absolute humidity must be positive (g/m3)"%string)
  /\ set_absolute_humidity float_max self (PyFloat NegInf) s
     = (Raise (ValueError "absolute humidity must be positive (g/m3)"), s).
Proof.
  split; [| split; [reflexivity | split; [| reflexivity]]].
  - unfold set_absolute_humidity. cbn [le_zero].
    assert (Hpos : Qle_bool g 0 = false).
    { destruct (Qle_bool g 0) eqn:E; [| reflexivity].
      apply Qle_bool_iff in E. exfalso. exact (Qlt_not_le _ _ Hg E). }
    rewrite Hpos. unfold bind, lift, humidity_word. cbn [mul_256].
    unfold float_of_real.
    assert (Hbig : Qle_bool (g * 256) float_max = false).
    { destruct (Qle_bool (g * 256) float_max) eqn:E; [| reflexivity].
      apply Qle_bool_iff in E. exfalso. exact (Qlt_not_le _ _ Hover E). }
    rewrite Hbig. reflexivity.
  - exists "can't convert NaN to int"%string. split; [reflexivity |].
    discriminate.
Qed.

Lemma humidity_not_finite_witness :
  set_absolute_humidity binary64_max sensor
    (PyFloat (Finite (inject_Z (2 ^ 1016)))) (quiet (Ok []))
  = (Raise (OtherException "OverflowError"), quiet (Ok [])).
Proof.
  refine (proj1 (humidity_not_finite binary64_max sensor (quiet (Ok []))
                   (inject_Z (2 ^ 1016)) _ _)); reflexivity.
Defined.
